(** * webmention-receiver: the admission-and-verification pipeline

    A shallow embedding of [index.js]: the request validator
    ([BAD_REQUEST_PREDICATES], [isValid], [toMention]), the admission
    policy ([isDuplicate], [isEnqueueable]), the request handler and the
    periodic verifier ([validateMention]).

    Conventions of the embedding.
    - A JavaScript string is a [string]; [===] on strings is [String.eqb],
      [startsWith] is [String.prefix], [includes] is [JS.includes].
    - The objects of [queue] and of [received.webmentions] are records of
      type [Webmention] whose optional properties are [option] fields.
    - [failures] is a plain object used as a dictionary from source URL to
      an integer count: a [gmap string Z].  Counts are unbounded integers.
    - [URL.canParse], [URLSearchParams] and the allow-list come from the
      host and are the fields of the class [Host]; every property is
      proved for all hosts.
    - [Date.now()] and the outcome of [fetch] are supplied by the caller of
      each step, the outcome of the body read ([response.text()]) with it.
      The file writes are taken to complete; every write is recorded in
      the step's result.
    - A verifier run suspends at its [await]s.  It touches the state in two
      turns, [shift] before the fetch and [settle] after it, and a history
      ([run]) may place any other event between the two.
    - A call that can throw returns a [Completion]. *)

From Stdlib Require Import ZArith Ascii String List Bool Lia.
From stdpp Require Import gmap strings list fin_maps.
Import ListNotations.

Local Open Scope string_scope.
Local Open Scope list_scope.
Local Open Scope Z_scope.

(** ** JavaScript primitives *)

Module JS.

(** [haystack.includes(needle)]: [needle] occurs somewhere in
    [haystack]. *)
Fixpoint includes (haystack needle : string) : bool :=
  String.prefix needle haystack
  || match haystack with
     | EmptyString => false
     | String _ rest => includes rest needle
     end.

(** [s.startsWith(p)]. *)
Definition startsWith (s p : string) : bool := String.prefix p s.

(** Truthiness of a number: everything but zero. *)
Definition truthy_number (n : Z) : bool := negb (n =? 0)%Z.

(** Truthiness of a string or [null]: neither [null] nor empty. *)
Definition truthy_string (s : option string) : bool :=
  match s with
  | Some EmptyString | None => false
  | Some _ => true
  end.

(** [Array.prototype.find]: the first element satisfying [p]. *)
Definition find {A} (p : A -> bool) (l : list A) : option A := List.find p l.

(** Assignment through the reference returned by [find]: the first
    element satisfying [p] is replaced by its image under [f]; the array
    is unchanged when there is none. *)
Fixpoint assign_found {A} (p : A -> bool) (f : A -> A) (l : list A) : list A :=
  match l with
  | [] => []
  | x :: rest => if p x then f x :: rest else x :: assign_found p f rest
  end.

Inductive Error := TypeError | ReferenceError.

(** The result of evaluating an expression that may throw. *)
Inductive Completion (A : Type) :=
| Normal (a : A)
| Throw (e : Error).
Arguments Normal {A} a.
Arguments Throw {A} e.

Definition and_then {A B} (c : Completion A) (k : A -> Completion B) : Completion B :=
  match c with
  | Normal a => k a
  | Throw e => Throw e
  end.

(** [Array.prototype.some] over callbacks that may throw: stops at the
    first callback that returns [true] or throws. *)
Fixpoint some {A} (ps : list (A -> Completion bool)) (x : A) : Completion bool :=
  match ps with
  | [] => Normal false
  | p :: rest =>
      and_then (p x) (fun b => if b then Normal true else some rest x)
  end.

End JS.

Import JS.

(** ** Data model *)

(** An object of [queue] or of [received.webmentions].  [toMention] builds
    it with [source] and [target] only; the verifier adds the rest. *)
Record Webmention := {
  source : string;
  target : string;
  validated : option bool;
  mentioned : option bool;
  isMentioned : option bool;
  deleted : option bool;
  validatedAt : option Z
}.

(** The object literal [{ source, target }]. *)
Definition pair_of (s t : string) : Webmention :=
  {| source := s; target := t; validated := None; mentioned := None;
     isMentioned := None; deleted := None; validatedAt := None |}.

(** The module-level mutable variables [queue], [received] (its
    [webmentions] array) and [failures]. *)
Record State := {
  queue : list Webmention;
  webmentions : list Webmention;
  failures : gmap string Z
}.

(** The part of an [http.IncomingMessage] the validator reads. *)
Record Request := {
  method : string;
  headers : option (gmap string string)
}.

(** What [fetch(url).catch(...)] resolves to: [undefined] after a
    rejection, or a response with its status.  The body of a response is
    read only later, by [response.text()]: either it gives the text, or
    the read fails and [response.text()] rejects. *)
Inductive Fetched :=
| Rejected
| Response (status : Z) (text : string)
| Unreadable (status : Z).

Definition ok (status : Z) : bool := (200 <=? status) && (status <=? 299).

(** The two storage files and what [JSON.stringify] is applied to. *)
Inductive File := mentionsFile | failureFile.

Inductive Content :=
| ReceivedJSON (received : list Webmention)
| FailuresJSON (counts : gmap string Z).

Definition Write : Type := File * Content.

(** ** Admission policy *)

Definition isDuplicate (mention existing : Webmention) : bool :=
  String.eqb (source existing) (source mention)
  && String.eqb (target existing) (target mention).

(** [24 * 60 * 60 * 1000] milliseconds. *)
Definition WINDOW : Z := 24 * 60 * 60 * 1000.

Definition isEnqueueable (st : State) (now : Z) (mention : Webmention) : bool :=
  match find (isDuplicate mention) (queue st) with
  | Some alreadyEnqueued => false
  | None =>
      let failedValidations := failures st !! source mention in
      if match failedValidations with
         | Some n => truthy_number n && (5 <? n)
         | None => false
         end
      then false
      else
        match find (isDuplicate mention) (webmentions st) with
        | Some alreadyValidated =>
            (* [Date.now() - undefined] is [NaN], and [NaN < x] is false *)
            match validatedAt alreadyValidated with
            | Some at_ =>
                let elapsedTime := now - at_ in
                if elapsedTime <? WINDOW then false else true
            | None => true
            end
        | None => true
        end
  end.

(** ** Verifier *)

(** [existing.validatedAt = Date.now(); existing.isMentioned = isMentioned]. *)
Definition revalidate (now : Z) (isMentioned_ : bool) (existing : Webmention) : Webmention :=
  {| source := source existing; target := target existing;
     validated := validated existing; mentioned := mentioned existing;
     isMentioned := Some isMentioned_; deleted := deleted existing;
     validatedAt := Some now |}.

(** [existing.validatedAt = Date.now(); existing.deleted = true]. *)
Definition mark_deleted (now : Z) (existing : Webmention) : Webmention :=
  {| source := source existing; target := target existing;
     validated := validated existing; mentioned := mentioned existing;
     isMentioned := isMentioned existing; deleted := Some true;
     validatedAt := Some now |}.

(** [{ ...mention, validated: true, mentioned: isMentioned,
      validatedAt: Date.now() }]. *)
Definition new_mentioned (now : Z) (isMentioned_ : bool) (mention : Webmention) : Webmention :=
  {| source := source mention; target := target mention;
     validated := Some true; mentioned := Some isMentioned_;
     isMentioned := isMentioned mention; deleted := deleted mention;
     validatedAt := Some now |}.

(** [{ ...mention, validated: true, deleted: true,
      validatedAt: Date.now() }]. *)
Definition new_deleted (now : Z) (mention : Webmention) : Webmention :=
  {| source := source mention; target := target mention;
     validated := Some true; mentioned := mentioned mention;
     isMentioned := isMentioned mention; deleted := Some true;
     validatedAt := Some now |}.

(** The [find]-then-assign-or-[push] of both recording branches. *)
Definition upsert (mention : Webmention) (update : Webmention -> Webmention)
    (fresh : Webmention) (store : list Webmention) : list Webmention :=
  match find (isDuplicate mention) store with
  | Some existing => assign_found (isDuplicate mention) update store
  | None => store ++ [fresh]
  end.

(** The part of [validateMention] that follows [await fetch(...)]: given
    the shifted [mention], what the fetch resolved to and what [Date.now()]
    returns, the state it leaves and the files it wrote.  The state is read
    and changed in one turn, after the body is read and before the write
    is awaited.  [setInterval]'s callback calls [validateMention] inside a
    [try] without awaiting it, so a rejection of the run is caught by
    nothing. *)
Definition settle (mention : Webmention) (response : Fetched) (now : Z) (st : State)
    : State * list Write :=
  (* the final [else] branch, shared by a rejected fetch and by a response
     that is neither [ok] nor 410 *)
  let failed :=
    let counts :=
      match failures st !! source mention with
      | Some n =>
          if truthy_number n then <[source mention := n + 1]> (failures st)
          else <[source mention := 1]> (failures st)
      | None => <[source mention := 1]> (failures st)
      end in
    ({| queue := queue st; webmentions := webmentions st; failures := counts |},
     [(failureFile, FailuresJSON counts)]) in
  (* the [else if] branch of a 410; it does not read the body *)
  let gone :=
    let received :=
      upsert mention (mark_deleted now) (new_deleted now mention)
        (webmentions st) in
    ({| queue := queue st; webmentions := received; failures := failures st |},
     [(mentionsFile, ReceivedJSON received)]) in
  match response with
  | Response status data =>
      if ok status then
        let isMentioned_ := includes data (target mention) in
        let received :=
          upsert mention (revalidate now isMentioned_)
            (new_mentioned now isMentioned_ mention) (webmentions st) in
        ({| queue := queue st; webmentions := received; failures := failures st |},
         [(mentionsFile, ReceivedJSON received)])
      else if status =? 410 then gone
      else failed
  | Unreadable status =>
      (* [await response.text()] rejects, nothing catches it, and the run
         ends there: the shifted mention is gone, nothing else changes and
         nothing is written *)
      if ok status then (st, [])
      else if status =? 410 then gone
      else failed
  | Rejected => failed
  end.

(** [queue.shift()]. *)
Definition shift (st : State) : State :=
  {| queue := tail (queue st); webmentions := webmentions st; failures := failures st |}.

(** One run of [validateMention] with nothing else happening during its
    [await]s.  [fetch] is what the network answers during this run. *)
Definition validateMention (fetch : string -> Fetched) (now : Z) (st : State)
    : State * list Write :=
  match queue st with
  | [] => (st, [])
  | mention :: _ => settle mention (fetch (source mention)) now (shift st)
  end.

(** ** Request validation and admission *)

(** What the module takes from its host: two platform functions and the
    allow-list read at start-up.  [URLSearchParams_get body name] is
    [new URLSearchParams(body).get(name)]. *)
Class Host := {
  URL_canParse : string -> bool;
  URLSearchParams_get : string -> string -> option string;
  ALLOWED_TARGET_BASE_URLS : list string
}.

Definition DEBUG : bool := false.

(** The argument [{ mention, request }] of a predicate. *)
Record Submission := {
  request : Request;
  mention : option Webmention
}.

(** Reading a property of [mention]: a [TypeError] on [null]. *)
Definition of_mention {A} (c : Submission) (k : Webmention -> A) : Completion A :=
  match mention c with
  | Some m => Normal (k m)
  | None => Throw TypeError
  end.

Definition BAD_REQUEST_PREDICATES `{Host} : list (Submission -> Completion bool) :=
  [ (fun c => Normal (negb (String.eqb (method (request c)) "POST")));
    (fun c => Normal (match headers (request c) with None => true | Some _ => false end));
    (fun c =>
       match headers (request c) with
       | None => Throw TypeError
       | Some h =>
           Normal
             (match h !! "content-type" with
              | Some ct => negb (String.eqb ct "application/x-www-form-urlencoded")
              | None => true
              end)
       end);
    (fun c => Normal (match mention c with None => true | Some _ => false end));
    (fun c => of_mention c (fun m => String.eqb (target m) (source m)));
    (fun c => of_mention c (fun m => negb (URL_canParse (source m))));
    (fun c => of_mention c (fun m => negb (URL_canParse (target m))));
    (fun c =>
       of_mention c (fun m =>
         (0 <? Z.of_nat (length ALLOWED_TARGET_BASE_URLS))
         && negb (existsb (fun allowedBaseUrl => startsWith (target m) allowedBaseUrl)
                    ALLOWED_TARGET_BASE_URLS)));
    (fun c =>
       of_mention c (fun m =>
         negb (startsWith (target m) "https://" || startsWith (target m) "http://")))
  ].

(** [isValid(request, mention)].  The diagnostic branch reads the
    undeclared name [payload], a [ReferenceError]; [DEBUG] is [false]. *)
Definition isValid `{Host} (req : Request) (m : option Webmention) : Completion bool :=
  and_then (some BAD_REQUEST_PREDICATES {| request := req; mention := m |})
    (fun isBadRequest =>
       if isBadRequest && DEBUG then Throw ReferenceError
       else Normal (negb isBadRequest)).

Definition toMention `{Host} (body : string) : option Webmention :=
  if negb (truthy_string (URLSearchParams_get body "source"))
     || negb (truthy_string (URLSearchParams_get body "target"))
  then None
  else
    match URLSearchParams_get body "source", URLSearchParams_get body "target" with
    | Some s, Some t => Some (pair_of s t)
    | _, _ => None
    end.

(** The callback of [http.createServer] once the body is read: the new
    state and the status passed to [response.writeHead].  An exception in
    the [then] callback reaches the [catch], which answers 500. *)
Definition handle `{Host} (st : State) (now : Z) (req : Request) (body : string)
    : State * Z :=
  let m := toMention body in
  match isValid req m with
  | Throw _ => (st, 500)
  | Normal false => (st, 400)
  | Normal true =>
      match m with
      | None => (st, 500) (* [mention.source] of [null] in [isEnqueueable] *)
      | Some m =>
          if isEnqueueable st now m then
            ({| queue := queue st ++ [m]; webmentions := webmentions st;
                failures := failures st |}, 202)
          else (st, 500)
      end
  end.

(** ** The pipeline *)

(** What happens to the process, one turn of the event loop at a time: the
    body of a request has been read and the request is handled; the timer
    starts a verifier run, which shifts the queue; a verifier run resumes
    after its fetch.  Requests and other runs may come between the two
    halves of a run. *)
Inductive Event :=
| Submit (now : Z) (req : Request) (body : string)
| Dequeue
| Settle (mention : Webmention) (response : Fetched) (now : Z).

Definition step `{Host} (st : State) (ev : Event) : State :=
  match ev with
  | Submit now req body => fst (handle st now req body)
  | Dequeue => shift st
  | Settle mention response now => fst (settle mention response now st)
  end.

Definition run `{Host} (evs : list Event) (st : State) : State :=
  fold_left step evs st.

(** Uninterrupted verifier runs, one per timer tick: each element of
    [ticks] gives what the network answers and what [Date.now()] returns
    during that run.  The writes are collected in order. *)
Fixpoint runs (ticks : list ((string -> Fetched) * Z)) (st : State) : State * list Write :=
  match ticks with
  | [] => (st, [])
  | (fetch, now) :: rest =>
      let (st', written) := validateMention fetch now st in
      let (st'', written') := runs rest st' in
      (st'', written ++ written')
  end.

(** ** The earlier draft

    The repository keeps an earlier draft of [index.js].  Its validator
    takes the body and reads the parameters from the [URLSearchParams]
    object in each predicate; its verifier appends to the store without
    looking for an existing entry.  [isDuplicate], [isEnqueueable] and the
    failure branch are the same text as in [index.js]. *)

Module Draft.

(** The argument [{ request, payload }] of a predicate; [payload name] is
    [payload.get(name)]. *)
Record Submission := {
  request : Request;
  payload : string -> option string
}.

(** [a === b] on values that are strings or [null]. *)
Definition strict_equal (a b : option string) : bool :=
  match a, b with
  | Some x, Some y => String.eqb x y
  | None, None => true
  | _, _ => false
  end.

(** The string a platform function makes of an argument that is a string
    or [null]. *)
Definition to_string (a : option string) : string :=
  match a with
  | Some x => x
  | None => "null"
  end.

(** Calling a method of [payload.get("target")]: a [TypeError] on
    [null]. *)
Definition of_target {A} (c : Submission) (k : string -> A) : Completion A :=
  match payload c "target" with
  | Some t => Normal (k t)
  | None => Throw TypeError
  end.

Definition BAD_REQUEST_PREDICATES `{Host} : list (Submission -> Completion bool) :=
  [ (fun c => Normal (negb (String.eqb (method (request c)) "POST")));
    (fun c => Normal (match headers (request c) with None => true | Some _ => false end));
    (fun c =>
       match headers (request c) with
       | None => Throw TypeError
       | Some h =>
           Normal
             (match h !! "content-type" with
              | Some ct => negb (String.eqb ct "application/x-www-form-urlencoded")
              | None => true
              end)
       end);
    (* [!payload]: an object is truthy *)
    (fun c => Normal false);
    (fun c => Normal (negb (truthy_string (payload c "source"))));
    (fun c => Normal (negb (truthy_string (payload c "target"))));
    (fun c => Normal (strict_equal (payload c "target") (payload c "source")));
    (fun c => Normal (negb (URL_canParse (to_string (payload c "source")))));
    (fun c => Normal (negb (URL_canParse (to_string (payload c "target")))));
    (fun c =>
       (* [&&] does not evaluate the [some] on an empty list, and [some]
          calls its callback on a non-empty one *)
       if 0 <? Z.of_nat (length ALLOWED_TARGET_BASE_URLS) then
         of_target c (fun t =>
           negb (existsb (fun target => startsWith t target) ALLOWED_TARGET_BASE_URLS))
       else Normal false);
    (fun c =>
       of_target c (fun t =>
         negb (startsWith t "https://" || startsWith t "http://")))
  ].

(** [isValid(request, body)].  The diagnostic branch only logs, and
    [DEBUG] is [false]. *)
Definition isValid `{Host} (req : Request) (body : string) : Completion bool :=
  and_then
    (some BAD_REQUEST_PREDICATES
       {| request := req; payload := URLSearchParams_get body |})
    (fun isBadRequest => Normal (negb isBadRequest)).

(** The part of the draft's [validateMention] that follows
    [await fetch(...)]. *)
Definition settle (mention : Webmention) (response : Fetched) (now : Z) (st : State)
    : State * list Write :=
  let failed :=
    let counts :=
      match failures st !! source mention with
      | Some n =>
          if truthy_number n then <[source mention := n + 1]> (failures st)
          else <[source mention := 1]> (failures st)
      | None => <[source mention := 1]> (failures st)
      end in
    ({| queue := queue st; webmentions := webmentions st; failures := counts |},
     [(failureFile, FailuresJSON counts)]) in
  let gone :=
    let received := webmentions st ++ [new_deleted now mention] in
    ({| queue := queue st; webmentions := received; failures := failures st |},
     [(mentionsFile, ReceivedJSON received)]) in
  match response with
  | Response status data =>
      if ok status then
        let isMentioned_ := includes data (target mention) in
        let received :=
          webmentions st ++ [new_mentioned now isMentioned_ mention] in
        ({| queue := queue st; webmentions := received; failures := failures st |},
         [(mentionsFile, ReceivedJSON received)])
      else if status =? 410 then gone
      else failed
  | Unreadable status =>
      if ok status then (st, [])
      else if status =? 410 then gone
      else failed
  | Rejected => failed
  end.

Definition validateMention (fetch : string -> Fetched) (now : Z) (st : State)
    : State * list Write :=
  match queue st with
  | [] => (st, [])
  | mention :: _ => settle mention (fetch (source mention)) now (shift st)
  end.

End Draft.

(** ** Vocabulary of the properties *)

(** Two objects name the same notification: their [source] strings are
    equal and their [target] strings are equal. *)
Definition same_pair (m e : Webmention) : Prop :=
  source e = source m /\ target e = target m.

Global Instance same_pair_dec m e : Decision (same_pair m e).
Proof. unfold same_pair. apply _. Defined.

Definition key (e : Webmention) : string * string := (source e, target e).

(** At most one entry per (source, target) pair. *)
Definition unique_pairs (l : list Webmention) : Prop := NoDup (key <$> l).

(** The entries of a collection that name notification [m]. *)
Definition entries_for (m : Webmention) (l : list Webmention) : list Webmention :=
  filter (same_pair m) l.

(** The entries of a collection that name another notification than [m]. *)
Definition entries_of_others (m : Webmention) (l : list Webmention) : list Webmention :=
  filter (fun e => ~ same_pair m e) l.

(** The state cut down to what names notification [m]: the queue and store
    entries with the very strings of [m], and the failure count filed under
    the very string [source m]. *)
Definition only_for (m : Webmention) (st : State) : State :=
  {| queue := entries_for m (queue st);
     webmentions := entries_for m (webmentions st);
     failures :=
       match failures st !! source m with
       | Some n => {[ source m := n ]}
       | None => ∅
       end |}.

(** The failure count of a source, zero when the source has no property in
    [failures]. *)
Definition counter (st : State) (s : string) : Z := default 0 (failures st !! s).

(** The fetch outcomes the verifier records in the store: a 2xx response
    whose body was read, or a 410. *)
Definition recorded (r : Fetched) : bool :=
  match r with
  | Response status _ => ok status || (status =? 410)
  | Unreadable status => negb (ok status) && (status =? 410)
  | Rejected => false
  end.

(** The fetch outcomes the verifier counts as a failure: a rejected fetch,
    or a response whose status is neither 2xx nor 410. *)
Definition counted (r : Fetched) : bool :=
  match r with
  | Response status _ | Unreadable status => negb (ok status) && negb (status =? 410)
  | Rejected => true
  end.

(** No 2xx response of this network has a body that cannot be read. *)
Definition bodies_readable (fetch : string -> Fetched) : Prop :=
  forall url status, fetch url = Unreadable status -> ok status = false.

(** Whether event [ev] is the end of a verifier run on a notification of
    source [s] whose outcome is counted as a failure. *)
Definition fails_for (s : string) (ev : Event) : bool :=
  match ev with
  | Settle m response _ => bool_decide (source m = s) && counted response
  | _ => false
  end.

(** The number of such runs in a history. *)
Definition failed_runs (s : string) (evs : list Event) : Z :=
  Z.of_nat (length (List.filter (fails_for s) evs)).

(** The 410 clause as claimed: after a run that got a 410 for the pair at
    the head of the queue, every entry for that pair has [deleted] set and
    no [mentioned] property. *)
Definition gone_unsets_mentioned (fetch : string -> Fetched) (now : Z) (st : State) : Prop :=
  forall m rest data,
    queue st = m :: rest ->
    fetch (source m) = Response 410 data ->
    forall e,
      e ∈ entries_for m (webmentions (fst (validateMention fetch now st))) ->
      deleted e = Some true /\ mentioned e = None.

(** The rules of the validator, as properties of the request and of the
    submitted pair. *)
Definition valid_request (req : Request) : Prop :=
  method req = "POST"
  /\ exists h, headers req = Some h
       /\ h !! "content-type" = Some "application/x-www-form-urlencoded".

Definition valid_mention `{Host} (m : Webmention) : Prop :=
  source m <> target m
  /\ URL_canParse (source m) = true
  /\ URL_canParse (target m) = true
  /\ (ALLOWED_TARGET_BASE_URLS = []
      \/ exists allowedBaseUrl,
           allowedBaseUrl ∈ ALLOWED_TARGET_BASE_URLS
           /\ String.prefix allowedBaseUrl (target m) = true)
  /\ (String.prefix "https://" (target m) = true
      \/ String.prefix "http://" (target m) = true).

(** The body binds [source] and [target] to non-empty strings, and the
    request and the pair pass every rule. *)
Definition passes_rules `{Host} (req : Request) (body : string) : Prop :=
  valid_request req
  /\ exists s t,
       URLSearchParams_get body "source" = Some s
       /\ URLSearchParams_get body "target" = Some t
       /\ s <> "" /\ t <> ""
       /\ valid_mention (pair_of s t).

(** What an entry keeps once it is in the store: its pair, its
    [validated] and [mentioned] properties, and a [deleted] flag that is
    set. *)
Definition kept (e e' : Webmention) : Prop :=
  key e' = key e
  /\ validated e' = validated e
  /\ mentioned e' = mentioned e
  /\ (deleted e = Some true -> deleted e' = Some true).

(** What the handler puts in the queue: an object with the two properties
    [source] and [target] only, both non-empty, that passed the rules. *)
Definition admitted `{Host} (q : Webmention) : Prop :=
  q = pair_of (source q) (target q)
  /\ source q <> "" /\ target q <> ""
  /\ valid_mention q.

(** The state after the handler has pushed [m]. *)
Definition pushed (m : Webmention) (st : State) : State :=
  {| queue := queue st ++ [m]; webmentions := webmentions st;
     failures := failures st |}.

(** The entry the verifier appends for a pair found reachable. *)
Definition verified (s t : string) (found : bool) (now : Z) : Webmention :=
  {| source := s; target := t; validated := Some true; mentioned := Some found;
     isMentioned := None; deleted := None; validatedAt := Some now |}.

(** The contents of the two storage files, and the effect of a write: the
    whole file is replaced. *)
Definition Disk : Type := File -> Content.

Definition same_file (f g : File) : bool :=
  match f, g with
  | mentionsFile, mentionsFile | failureFile, failureFile => true
  | _, _ => false
  end.

Definition write_file (d : Disk) (w : Write) : Disk :=
  fun f => if same_file f (fst w) then snd w else d f.

Definition write_all (ws : list Write) (d : Disk) : Disk := fold_left write_file ws d.

(** The files hold what is in memory. *)
Definition mirrors (d : Disk) (st : State) : Prop :=
  d mentionsFile = ReceivedJSON (webmentions st)
  /\ d failureFile = FailuresJSON (failures st).

(** The rules in the words of the specification.  The scheme of a URL is
    what stands before its first colon, and schemes compare without regard
    to case; the media type of a [content-type] value is what stands
    before its first semicolon, likewise without regard to case. *)
Definition lower (c : ascii) : ascii :=
  let n := N_of_ascii c in
  if ((65 <=? n) && (n <=? 90))%N then ascii_of_N (n + 32) else c.

Fixpoint lower_case (s : string) : string :=
  match s with
  | EmptyString => EmptyString
  | String c rest => String (lower c) (lower_case rest)
  end.

(** The text of [s] before the first [sep], when [sep] occurs in [s]. *)
Fixpoint text_before (sep : ascii) (s : string) : option string :=
  match s with
  | EmptyString => None
  | String c rest =>
      if Ascii.eqb c sep then Some EmptyString
      else
        match text_before sep rest with
        | Some head => Some (String c head)
        | None => None
        end
  end.

Definition scheme (url : string) : option string :=
  match text_before ":" url with
  | Some name => Some (lower_case name)
  | None => None
  end.

Definition media_type (value : string) : string :=
  match text_before ";" value with
  | Some essence => lower_case essence
  | None => lower_case value
  end.

Definition rules_as_claimed `{Host} (req : Request) (body : string) : Prop :=
  method req = "POST"
  /\ (exists h value,
        headers req = Some h
        /\ h !! "content-type" = Some value
        /\ media_type value = "application/x-www-form-urlencoded")
  /\ exists s t,
       URLSearchParams_get body "source" = Some s
       /\ URLSearchParams_get body "target" = Some t
       /\ s <> "" /\ t <> ""
       /\ s <> t
       /\ URL_canParse s = true
       /\ URL_canParse t = true
       /\ (ALLOWED_TARGET_BASE_URLS = []
           \/ exists allowedBaseUrl,
                allowedBaseUrl ∈ ALLOWED_TARGET_BASE_URLS
                /\ String.prefix allowedBaseUrl t = true)
       /\ (scheme t = Some "http" \/ scheme t = Some "https").

(** The validator as claimed: it accepts exactly the requests that meet
    these rules. *)
Definition validator_as_claimed `{Host} (req : Request) (body : string) : Prop :=
  isValid req (toMention body) = Normal true <-> rules_as_claimed req body.

(** ** A host to run the model on

    The properties below hold for every [Host].  To evaluate the model on
    concrete requests we fix one: a parser of
    [application/x-www-form-urlencoded] bodies over byte strings (an
    optional leading question mark, fields separated by [&], name and
    value separated by the first [=], [+] read as a space, then
    percent-decoding), and a stand-in for [URL.canParse] that accepts the
    strings with a leading ASCII-letter scheme followed by a colon. *)

Module Sample.

Local Open Scope char_scope.

Fixpoint split_on (sep : ascii) (s : string) : list string :=
  match s with
  | EmptyString => [EmptyString]
  | String c rest =>
      match split_on sep rest with
      | field :: fields =>
          if Ascii.eqb c sep then EmptyString :: field :: fields
          else String c field :: fields
      | [] => [String c EmptyString]
      end
  end.

Fixpoint cut_at (sep : ascii) (s : string) : string * string :=
  match s with
  | EmptyString => (EmptyString, EmptyString)
  | String c rest =>
      if Ascii.eqb c sep then (EmptyString, rest)
      else let (name, value) := cut_at sep rest in (String c name, value)
  end.

Definition hex_digit (c : ascii) : option N :=
  let n := N_of_ascii c in
  if ((48 <=? n) && (n <=? 57))%N then Some (n - 48)%N
  else if ((65 <=? n) && (n <=? 70))%N then Some (n - 55)%N
  else if ((97 <=? n) && (n <=? 102))%N then Some (n - 87)%N
  else None.

Fixpoint percent_decode (s : string) : string :=
  match s with
  | EmptyString => EmptyString
  | String c tail =>
      if Ascii.eqb c "%" then
        match tail with
        | String h (String l rest) =>
            match hex_digit h, hex_digit l with
            | Some x, Some y =>
                String (ascii_of_N (16 * x + y)) (percent_decode rest)
            | _, _ => String c (percent_decode tail)
            end
        | _ => String c (percent_decode tail)
        end
      else String c (percent_decode tail)
  end.

Fixpoint plus_to_space (s : string) : string :=
  match s with
  | EmptyString => EmptyString
  | String c rest => String (if Ascii.eqb c "+" then " " else c) (plus_to_space rest)
  end.

Definition strip_question_mark (s : string) : string :=
  match s with
  | String "?" rest => rest
  | _ => s
  end.

(** The list of name-value pairs of a body, in order. *)
Definition parse (body : string) : list (string * string) :=
  let fields :=
    List.filter (fun f => negb (String.eqb f EmptyString))
      (split_on "&" (strip_question_mark body)) in
  List.map
    (fun f =>
       let (name, value) := cut_at "=" f in
       (percent_decode (plus_to_space name), percent_decode (plus_to_space value)))
    fields.

(** The value of the first pair named [name], [null] when there is none. *)
Definition get (body name : string) : option string :=
  match List.find (fun p => String.eqb (fst p) name) (parse body) with
  | Some p => Some (snd p)
  | None => None
  end.

Fixpoint scheme_then_colon (s : string) : bool :=
  match s with
  | EmptyString => false
  | String c rest =>
      if Ascii.eqb c ":" then true
      else
        let n := N_of_ascii c in
        (((97 <=? n) && (n <=? 122)) || ((65 <=? n) && (n <=? 90))
         || ((48 <=? n) && (n <=? 57)) || (n =? 43) || (n =? 45) || (n =? 46))%N
        && scheme_then_colon rest
  end.

Definition canParse (s : string) : bool :=
  match s with
  | EmptyString => false
  | String c rest =>
      let n := N_of_ascii c in
      (((97 <=? n) && (n <=? 122)) || ((65 <=? n) && (n <=? 90)))%N
      && scheme_then_colon rest
  end.

(** The sample host, with the allow-list [allowed]. *)
Definition host (allowed : list string) : Host :=
  {| URL_canParse := canParse;
     URLSearchParams_get := get;
     ALLOWED_TARGET_BASE_URLS := allowed |}.

Local Open Scope string_scope.

Definition post : Request :=
  {| method := "POST";
     headers := Some {[ "content-type" := "application/x-www-form-urlencoded" ]} |}.

Definition a_post : string := "https://a.example/post".
Definition b_page : string := "https://b.example/page".

Definition body : string :=
  "source=https%3A%2F%2Fa.example%2Fpost&target=https://b.example/page".

Definition empty : State := {| queue := []; webmentions := []; failures := ∅ |}.

(** The network: the source page links to the target, is gone, or
    cannot be reached. *)
Definition links (url : string) : Fetched :=
  Response 200 "<a href='https://b.example/page'>a page</a>".
Definition gone (url : string) : Fetched := Response 410 "".
Definition down (url : string) : Fetched := Rejected.

(** The source answers 200 and the connection breaks while the body is
    read. *)
Definition unreadable (url : string) : Fetched := Unreadable 200.

(** The pair was verified at time 0 and the target was not found then;
    it is queued again. *)
Definition verified_unmentioned : State :=
  {| queue := [pair_of a_post b_page];
     webmentions :=
       [ {| source := a_post; target := b_page; validated := Some true;
            mentioned := Some false; isMentioned := None; deleted := None;
            validatedAt := Some 0 |} ];
     failures := ∅ |}.

(** The pair was verified at time 0 and the target was found then; it is
    queued again. *)
Definition verified_mentioned : State :=
  {| queue := [pair_of a_post b_page];
     webmentions :=
       [ {| source := a_post; target := b_page; validated := Some true;
            mentioned := Some true; isMentioned := None; deleted := None;
            validatedAt := Some 0 |} ];
     failures := ∅ |}.

(** The target written with an upper-case scheme. *)
Definition body_upper_scheme : string :=
  "source=https://a.example/post&target=HTTPS://b.example/page".

(** A form post whose content type carries a charset parameter. *)
Definition post_with_charset : Request :=
  {| method := "POST";
     headers :=
       Some {[ "content-type" := "application/x-www-form-urlencoded; charset=UTF-8" ]} |}.

(** A body that binds [source] to the empty string. *)
Definition body_empty_source : string := "source=&target=https://b.example/page".

(** The same page with a trailing slash. *)
Definition a_post_slash : string := "https://a.example/post/".

(** Both files as they are when nothing was ever recorded. *)
Definition blank_disk : Disk :=
  fun f =>
    match f with
    | mentionsFile => ReceivedJSON []
    | failureFile => FailuresJSON ∅
    end.

(** The source has failed six times. *)
Definition over_budget : State :=
  {| queue := []; webmentions := []; failures := {[ a_post := 6 ]} |}.

(** A body naming the same source and another target. *)
Definition body_other_target : string :=
  "source=https://a.example/post&target=https://b.example/other".

(** The pair is queued and nothing is stored. *)
Definition pending : State :=
  {| queue := [pair_of a_post b_page]; webmentions := []; failures := ∅ |}.

End Sample.

(** ** The model on examples *)

Example includes_self : includes "see https://b.example/page" "https://b.example/page" = true.
Proof. reflexivity. Qed.

Example includes_empty : includes "" "" = true.
Proof. reflexivity. Qed.

Example includes_none : includes "https://b.example/" "https://b.example/page" = false.
Proof. reflexivity. Qed.

Lemma prefix_spec p s :
  String.prefix p s = true <-> exists rest, s = (p ++ rest)%string.
Proof.
  revert p. induction s as [|d s IH]; intros [|c p]; simpl.
  - split; [intros _; by exists EmptyString | done].
  - split; [done | intros [rest Heq]; done].
  - split; [intros _; by exists (String d s) | done].
  - destruct (ascii_dec c d) as [-> | Hne].
    + rewrite IH. split; intros [rest Heq]; exists rest.
      * by rewrite Heq.
      * change (String d s = String d (p ++ rest)%string) in Heq. congruence.
    + split; [done | intros [rest Heq]].
      change (String d s = String c (p ++ rest)%string) in Heq. congruence.
Qed.

(** [includes] is the substring test. *)
Lemma includes_spec haystack needle :
  includes haystack needle = true
  <-> exists before after, haystack = (before ++ needle ++ after)%string.
Proof.
  induction haystack as [|c rest IH].
  - cbn [includes]. rewrite orb_false_r, prefix_spec. split.
    + intros [after Heq]. by exists EmptyString, after.
    + intros ([|c before] & after & Heq); [by exists after | done].
  - cbn [includes]. rewrite orb_true_iff, IH, prefix_spec. split.
    + intros [[after Heq] | (before & after & ->)].
      * by exists EmptyString, after.
      * by exists (String c before), after.
    + intros ([|c' before] & after & Heq).
      * left. by exists after.
      * right. injection Heq as -> ->. eauto.
Qed.

Example sample_parse :
  Sample.parse "?a=1&&b=x+y%21&c&source=https%3A%2F%2Fa.example%2Fpost=&%zz"
  = [("a", "1"); ("b", "x y!"); ("c", ""); ("source", "https://a.example/post=");
     ("%zz", "")].
Proof. reflexivity. Qed.

Example sample_toMention :
  @toMention (Sample.host []) Sample.body
  = Some (pair_of Sample.a_post Sample.b_page).
Proof. reflexivity. Qed.

Example sample_accepted :
  @handle (Sample.host []) Sample.empty 1000 Sample.post Sample.body
  = ({| queue := [pair_of Sample.a_post Sample.b_page]; webmentions := [];
        failures := ∅ |}, 202).
Proof. vm_compute. reflexivity. Qed.

(** ** Identity of notifications *)

Lemma isDuplicate_spec m e : isDuplicate m e = true <-> same_pair m e.
Proof.
  unfold isDuplicate, same_pair.
  rewrite andb_true_iff, !String.eqb_eq. tauto.
Qed.

Lemma isDuplicate_false m e : isDuplicate m e = false <-> ~ same_pair m e.
Proof.
  rewrite <- isDuplicate_spec. destruct (isDuplicate m e); split; congruence.
Qed.

Lemma same_pair_key m e : same_pair m e <-> key e = key m.
Proof. unfold same_pair, key. split; [intros [-> ->]; done | intros [= -> ->]; done]. Qed.

Lemma find_none_iff m (l : list Webmention) :
  find (isDuplicate m) l = None <-> forall e, e ∈ l -> ~ same_pair m e.
Proof.
  unfold find. induction l as [|x l IH]; simpl.
  - split; [intros _ e He; inversion He | done].
  - destruct (isDuplicate m x) eqn:Hx.
    + split; [done | intros Hall].
      exfalso. apply (Hall x); [left | by apply isDuplicate_spec].
    + rewrite IH. split.
      * intros Hall e He. apply elem_of_cons in He as [-> | He]; [|by apply Hall].
        by apply isDuplicate_false.
      * intros Hall e He. apply Hall. by right.
Qed.

Lemma find_some_first m (l : list Webmention) e :
  find (isDuplicate m) l = Some e ->
  exists before after,
    l = before ++ e :: after /\ same_pair m e
    /\ forall x, x ∈ before -> ~ same_pair m x.
Proof.
  unfold find. induction l as [|x l IH]; simpl; [done|].
  destruct (isDuplicate m x) eqn:Hx.
  - intros [= ->]. exists [], l. split; [done|]. split.
    + by apply isDuplicate_spec.
    + intros y Hy. inversion Hy.
  - intros Hfind. destruct (IH Hfind) as (before & after & -> & Hsame & Hbefore).
    exists (x :: before), after. split; [done|]. split; [done|].
    intros y Hy. apply elem_of_cons in Hy as [-> | Hy]; [|by apply Hbefore].
    by apply isDuplicate_false.
Qed.

Lemma assign_found_split m f before (e : Webmention) after :
  same_pair m e ->
  (forall x, x ∈ before -> ~ same_pair m x) ->
  assign_found (isDuplicate m) f (before ++ e :: after) = before ++ f e :: after.
Proof.
  intros Hsame. induction before as [|x before IH]; intros Hbefore; simpl.
  - apply isDuplicate_spec in Hsame. by rewrite Hsame.
  - assert (isDuplicate m x = false) as ->.
    { apply isDuplicate_false, Hbefore. left. }
    f_equal. apply IH. intros y Hy. apply Hbefore. by right.
Qed.

(** What the find-then-assign-or-push does to the store, in terms of the
    entry that [find] returns. *)
Lemma upsert_cases m update fresh store :
  (find (isDuplicate m) store = None /\ upsert m update fresh store = store ++ [fresh])
  \/ (exists before e after,
        find (isDuplicate m) store = Some e
        /\ store = before ++ e :: after
        /\ same_pair m e
        /\ (forall x, x ∈ before -> ~ same_pair m x)
        /\ upsert m update fresh store = before ++ update e :: after).
Proof.
  unfold upsert. destruct (find (isDuplicate m) store) as [e|] eqn:Hfind.
  - right. destruct (find_some_first _ _ _ Hfind) as (before & after & -> & Hsame & Hbefore).
    exists before, e, after.
    split; [done|]. split; [done|]. split; [done|]. split; [done|].
    by apply assign_found_split.
  - left. done.
Qed.

Lemma upsert_unique m update fresh store :
  (forall e, key (update e) = key e) ->
  key fresh = key m ->
  unique_pairs store -> unique_pairs (upsert m update fresh store).
Proof.
  intros Hupdate Hfresh Huniq. unfold unique_pairs in *.
  destruct (upsert_cases m update fresh store)
    as [[Hnone ->] | (before & e & after & _ & -> & _ & _ & ->)].
  - rewrite fmap_app. simpl. apply NoDup_app. split; [done|]. split.
    + intros k Hk Hk'. apply list_elem_of_singleton in Hk'. subst k.
      apply list_elem_of_fmap in Hk as (x & Hkey & Hx).
      rewrite find_none_iff in Hnone. apply (Hnone x Hx).
      apply same_pair_key. congruence.
    + apply NoDup_singleton.
  - rewrite fmap_app in *. simpl in *. by rewrite Hupdate.
Qed.

(** Among unique pairs, the entries for [m] after an upsert are exactly
    the one written. *)
Lemma upsert_entries m update fresh store :
  (forall e, key (update e) = key e) ->
  key fresh = key m ->
  unique_pairs store ->
  entries_for m (upsert m update fresh store)
  = [match find (isDuplicate m) store with
     | Some e => update e
     | None => fresh
     end].
Proof.
  intros Hupdate Hfresh Huniq. unfold entries_for.
  assert (Hnone : forall l : list Webmention,
             (forall x, x ∈ l -> ~ same_pair m x) -> filter (same_pair m) l = []).
  { induction l as [|x l IH]; intros Hl; [done|].
    rewrite filter_cons_False; [|apply Hl; left].
    apply IH. intros y Hy. apply Hl. by right. }
  destruct (upsert_cases m update fresh store)
    as [[Hfind ->] | (before & e & after & Hfind & -> & Hsame & Hbefore & ->)];
    rewrite Hfind.
  - rewrite filter_app, Hnone by (by apply find_none_iff).
    rewrite filter_cons_True by (by apply same_pair_key). done.
  - rewrite filter_app, Hnone by done.
    rewrite filter_cons_True
      by (apply same_pair_key; rewrite Hupdate; by apply same_pair_key).
    rewrite Hnone; [done|].
    intros x Hx Hsame'. unfold unique_pairs in Huniq.
    rewrite fmap_app in Huniq. apply NoDup_app in Huniq as (_ & _ & Huniq).
    simpl in Huniq. apply NoDup_cons in Huniq as [Hnotin _].
    apply Hnotin. apply list_elem_of_fmap. exists x. split; [|done].
    apply same_pair_key in Hsame, Hsame'. congruence.
Qed.

(** The entry that [find] returns after the find-then-assign-or-push. *)
Lemma find_upsert m update fresh store :
  (forall e, key (update e) = key e) ->
  key fresh = key m ->
  find (isDuplicate m) (upsert m update fresh store)
  = Some match find (isDuplicate m) store with
         | Some e => update e
         | None => fresh
         end.
Proof.
  intros Hupdate Hfresh.
  assert (Hskip : forall (before l : list Webmention),
             (forall x, x ∈ before -> ~ same_pair m x) ->
             find (isDuplicate m) (before ++ l) = find (isDuplicate m) l).
  { unfold find. induction before as [|x before IH]; intros l Hbefore; [done|].
    simpl. assert (isDuplicate m x = false) as ->.
    { apply isDuplicate_false, Hbefore. left. }
    apply IH. intros y Hy. apply Hbefore. by right. }
  destruct (upsert_cases m update fresh store)
    as [[Hfind ->] | (before & e & after & Hfind & -> & Hsame & Hbefore & ->)];
    rewrite Hfind.
  - rewrite Hskip by (by apply find_none_iff). unfold find. simpl.
    assert (isDuplicate m fresh = true) as ->; [|done].
    by apply isDuplicate_spec, same_pair_key.
  - rewrite Hskip by done. unfold find. simpl.
    assert (isDuplicate m (update e) = true) as ->; [|done].
    apply isDuplicate_spec, same_pair_key. rewrite Hupdate. by apply same_pair_key.
Qed.

Lemma key_revalidate now b e : key (revalidate now b e) = key e.
Proof. done. Qed.

Lemma key_mark_deleted now e : key (mark_deleted now e) = key e.
Proof. done. Qed.

Lemma key_new_mentioned now b m : key (new_mentioned now b m) = key m.
Proof. done. Qed.

Lemma key_new_deleted now m : key (new_deleted now m) = key m.
Proof. done. Qed.

(** ** The two halves of a verifier run *)

Lemma validateMention_run fetch now st m rest :
  queue st = m :: rest ->
  validateMention fetch now st = settle m (fetch (source m)) now (shift st).
Proof. intros Hq. unfold validateMention. by rewrite Hq. Qed.

Lemma settle_queue m response now st :
  queue (fst (settle m response now st)) = queue st.
Proof.
  unfold settle. destruct response as [|status data|status]; [done| |];
    (destruct (ok status); [done|]; by destruct (status =? 410)).
Qed.

(** Every outcome is of one of three kinds. *)
Lemma outcome_kinds response :
  recorded response = true
  \/ counted response = true
  \/ exists status, response = Unreadable status /\ ok status = true.
Proof.
  destruct response as [|status data|status]; simpl; [by right; left| |];
    destruct (ok status) eqn:Hok; simpl; eauto;
    destruct (status =? 410); simpl; eauto.
Qed.

Lemma counted_not_recorded response :
  counted response = true -> recorded response = false.
Proof.
  destruct response as [|status data|status]; simpl; [done| |];
    destruct (ok status); simpl; try done; by destruct (status =? 410).
Qed.

(** A recorded outcome is written to the store by the
    find-then-assign-or-push, with the run's timestamp. *)
Lemma settle_recorded m response now st :
  recorded response = true ->
  exists update fresh,
    (forall e, key (update e) = key e)
    /\ key fresh = key m
    /\ (forall e, validatedAt (update e) = Some now)
    /\ validatedAt fresh = Some now
    /\ webmentions (fst (settle m response now st))
       = upsert m update fresh (webmentions st).
Proof.
  intros Hrec. unfold settle.
  destruct response as [|status data|status]; [done| |]; simpl in Hrec.
  - destruct (ok status); [|destruct (status =? 410); [|done]].
    + by exists (revalidate now (includes data (target m))),
        (new_mentioned now (includes data (target m)) m).
    + by exists (mark_deleted now), (new_deleted now m).
  - destruct (ok status); [done|]. destruct (status =? 410); [|done].
    by exists (mark_deleted now), (new_deleted now m).
Qed.

Lemma settle_failures_recorded m response now st :
  recorded response = true ->
  failures (fst (settle m response now st)) = failures st.
Proof.
  intros Hrec. unfold settle.
  destruct response as [|status data|status]; [done| |]; simpl in Hrec;
    (destruct (ok status); [done|]; by destruct (status =? 410)).
Qed.

(** The [if]-[else] on the counter amounts to adding one to the count,
    an absent count being zero. *)
Lemma count_failure st s :
  match failures st !! s with
  | Some n =>
      if truthy_number n then <[s := n + 1]> (failures st)
      else <[s := 1]> (failures st)
  | None => <[s := 1]> (failures st)
  end
  = <[s := counter st s + 1]> (failures st).
Proof.
  unfold counter. destruct (failures st !! s) as [n|]; simpl; [|done].
  unfold truthy_number. by destruct (Z.eqb_spec n 0) as [-> | _].
Qed.

Lemma settle_counted m response now st :
  counted response = true ->
  settle m response now st
  = (let counts := <[source m := counter st (source m) + 1]> (failures st) in
     ({| queue := queue st; webmentions := webmentions st; failures := counts |},
      [(failureFile, FailuresJSON counts)])).
Proof.
  intros Hcount. unfold settle. rewrite count_failure.
  destruct response as [|status data|status]; [done| |]; simpl in Hcount;
    apply andb_true_iff in Hcount as [Hok Hgone];
    apply negb_true_iff in Hok, Hgone; by rewrite Hok, Hgone.
Qed.

(** A 2xx response whose body cannot be read: the run ends where it is. *)
Lemma settle_unreadable m status now st :
  ok status = true -> settle m (Unreadable status) now st = (st, []).
Proof. intros Hok. unfold settle. by rewrite Hok. Qed.

Lemma settle_unique m response now st :
  unique_pairs (webmentions st) ->
  unique_pairs (webmentions (fst (settle m response now st))).
Proof.
  intros Huniq.
  destruct (outcome_kinds response) as [Hrec | [Hcount | (status & -> & Hok)]].
  - destruct (settle_recorded m response now st Hrec)
      as (update & fresh & Hupdate & Hfresh & _ & _ & ->).
    by apply upsert_unique.
  - by rewrite settle_counted.
  - by rewrite settle_unreadable.
Qed.

(** ** The verifier: recording a reachable source *)

(** C1 (the code departs from it).  The pair is already stored with
    [mentioned = false]; the source is fetched with status 200 and its
    body now contains the target.  The run assigns [validatedAt] and a
    property named [isMentioned] on the stored entry; its [mentioned]
    property keeps the old value [false] although the body contains the
    target. *)
Theorem C1_update_writes_isMentioned_not_mentioned :
  let st' := fst (validateMention Sample.links 90000000 Sample.verified_unmentioned) in
  Sample.links Sample.a_post
  = Response 200 "<a href='https://b.example/page'>a page</a>"
  /\ includes "<a href='https://b.example/page'>a page</a>" Sample.b_page = true
  /\ webmentions st'
     = [ {| source := Sample.a_post; target := Sample.b_page;
            validated := Some true; mentioned := Some false;
            isMentioned := Some true; deleted := None;
            validatedAt := Some 90000000 |} ].
Proof. vm_compute. done. Qed.

(** On every update of an existing entry after a 2xx fetch, [mentioned]
    is left as it was and the result of the substring test goes to
    [isMentioned]. *)
Lemma revalidation_keeps_mentioned fetch now st m rest status data e :
  queue st = m :: rest ->
  fetch (source m) = Response status data ->
  ok status = true ->
  find (isDuplicate m) (webmentions st) = Some e ->
  exists e',
    find (isDuplicate m) (webmentions (fst (validateMention fetch now st))) = Some e'
    /\ mentioned e' = mentioned e
    /\ isMentioned e' = Some (includes data (target m))
    /\ validatedAt e' = Some now.
Proof.
  intros Hq Hfetch Hok Hfind.
  rewrite (validateMention_run fetch now st m rest Hq), Hfetch.
  unfold settle. rewrite Hok. simpl.
  rewrite find_upsert, Hfind by done. eauto.
Qed.

(** A fresh entry, by contrast, gets the result of the substring test in
    [mentioned]. *)
Lemma first_validation_sets_mentioned fetch now st m rest status data :
  queue st = m :: rest ->
  fetch (source m) = Response status data ->
  ok status = true ->
  find (isDuplicate m) (webmentions st) = None ->
  exists e',
    find (isDuplicate m) (webmentions (fst (validateMention fetch now st))) = Some e'
    /\ mentioned e' = Some (includes data (target m))
    /\ validated e' = Some true
    /\ validatedAt e' = Some now.
Proof.
  intros Hq Hfetch Hok Hfind.
  rewrite (validateMention_run fetch now st m rest Hq), Hfetch.
  unfold settle. rewrite Hok. simpl.
  rewrite find_upsert, Hfind by done. eauto.
Qed.

(** ** The verifier: recording a source that is gone *)

(** C2, counterexample.  The pair is stored with [mentioned = true]; the
    source now answers 410.  The entry gets [deleted = true] and still has
    its [mentioned] property. *)
Lemma C2_counterexample :
  ~ gone_unsets_mentioned Sample.gone 90000000 Sample.verified_mentioned.
Proof.
  intros Hclaim.
  destruct (Hclaim (pair_of Sample.a_post Sample.b_page) [] "" eq_refl eq_refl
              {| source := Sample.a_post; target := Sample.b_page;
                 validated := Some true; mentioned := Some true;
                 isMentioned := None; deleted := Some true;
                 validatedAt := Some 90000000 |}) as [_ Hmentioned].
  - vm_compute. left.
  - discriminate Hmentioned.
Qed.

(** C2, as amended.  After a run that got a 410 for the queued pair
    [(s, t)], the store's entry for the pair has [deleted = true] and the
    run's [validatedAt]; it has no [mentioned] property when the entry was
    appended by this run, and the [mentioned] property of the existing
    entry, unchanged, when it was updated. *)
Theorem C2_gone_sets_deleted_keeps_mentioned fetch now st s t rest data :
  queue st = pair_of s t :: rest ->
  fetch s = Response 410 data ->
  exists e',
    find (isDuplicate (pair_of s t)) (webmentions (fst (validateMention fetch now st)))
    = Some e'
    /\ deleted e' = Some true
    /\ validatedAt e' = Some now
    /\ mentioned e'
       = match find (isDuplicate (pair_of s t)) (webmentions st) with
         | Some existing => mentioned existing
         | None => None
         end.
Proof.
  intros Hq Hfetch.
  rewrite (validateMention_run fetch now st _ rest Hq). simpl source.
  rewrite Hfetch. unfold settle. simpl.
  rewrite find_upsert by done.
  destruct (find (isDuplicate (pair_of s t)) (webmentions st)); eauto.
Qed.

Lemma C2_gone_sets_deleted_keeps_mentioned_witness :
  exists e',
    find (isDuplicate (pair_of Sample.a_post Sample.b_page))
      (webmentions (fst (validateMention Sample.gone 90000000 Sample.verified_mentioned)))
    = Some e'
    /\ deleted e' = Some true
    /\ validatedAt e' = Some 90000000
    /\ mentioned e'
       = match find (isDuplicate (pair_of Sample.a_post Sample.b_page))
                 (webmentions Sample.verified_mentioned) with
         | Some existing => mentioned existing
         | None => None
         end.
Proof.
  apply (C2_gone_sets_deleted_keeps_mentioned Sample.gone 90000000
           Sample.verified_mentioned Sample.a_post Sample.b_page [] "").
  - reflexivity.
  - reflexivity.
Defined.

(** ** The store holds one entry per pair *)

Section Pipeline.

Context `{Host}.

Lemma handle_store st now req body :
  webmentions (fst (handle st now req body)) = webmentions st.
Proof.
  unfold handle. destruct (isValid req (toMention body)) as [[] |]; try done.
  destruct (toMention body) as [m|]; [|done].
  by destruct (isEnqueueable st now m).
Qed.

Lemma handle_failures st now req body :
  failures (fst (handle st now req body)) = failures st.
Proof.
  unfold handle. destruct (isValid req (toMention body)) as [[] |]; try done.
  destruct (toMention body) as [m|]; [|done].
  by destruct (isEnqueueable st now m).
Qed.

(** An uninterrupted run is a [Dequeue] followed at once by its [Settle]. *)
Lemma validateMention_steps fetch now st m rest :
  queue st = m :: rest ->
  fst (validateMention fetch now st)
  = run [Dequeue; Settle m (fetch (source m)) now] st.
Proof. intros Hq. by rewrite (validateMention_run fetch now st m rest Hq). Qed.

Lemma validateMention_idle fetch now st :
  queue st = [] -> validateMention fetch now st = (st, []).
Proof. intros Hq. unfold validateMention. by rewrite Hq. Qed.

Lemma step_unique st ev :
  unique_pairs (webmentions st) -> unique_pairs (webmentions (step st ev)).
Proof.
  destruct ev as [now req body | | m response now]; simpl.
  - by rewrite handle_store.
  - done.
  - apply settle_unique.
Qed.

Lemma run_unique evs st :
  unique_pairs (webmentions st) -> unique_pairs (webmentions (run evs st)).
Proof.
  revert st. induction evs as [|ev evs IH]; intros st Huniq; [done|].
  simpl. apply IH. by apply step_unique.
Qed.

Lemma run_app evs evs' st : run (evs ++ evs') st = run evs' (run evs st).
Proof. unfold run. apply fold_left_app. Qed.

(** C3.  Starting from a store with at most one entry per pair, the store
    has at most one entry per pair after any history of requests and
    verifier runs, however interleaved; and when a verifier run then
    records the pair at the head of the queue (a 2xx or a 410 outcome),
    the store still has at most one entry per pair and exactly one for
    that pair, carrying that run's [validatedAt].  So a pair processed
    once fresh and once more as an update has one entry, with the later
    timestamp. *)
Theorem C3_one_entry_per_pair st evs :
  unique_pairs (webmentions st) ->
  unique_pairs (webmentions (run evs st))
  /\ forall m rest fetch now,
       queue (run evs st) = m :: rest ->
       recorded (fetch (source m)) = true ->
       let st' := fst (validateMention fetch now (run evs st)) in
       unique_pairs (webmentions st')
       /\ exists e, entries_for m (webmentions st') = [e] /\ validatedAt e = Some now.
Proof.
  intros Huniq. pose proof (run_unique evs st Huniq) as Hrun.
  split; [done|]. intros m rest fetch now Hq Hrec st'. subst st'.
  rewrite (validateMention_run fetch now _ m rest Hq).
  split; [by apply settle_unique|].
  destruct (settle_recorded m (fetch (source m)) now (shift (run evs st)) Hrec)
    as (update & fresh & Hupdate & Hfresh & Hat & Hat' & ->).
  simpl. rewrite upsert_entries by done.
  eexists. split; [done|].
  by destruct (find (isDuplicate m) (webmentions (run evs st))).
Qed.

End Pipeline.

(** C3 on the scenario of the specification: the pair is verified at time
    1000, resubmitted and admitted a day and a second later, and verified
    again; the store then holds one entry, with the second timestamp. *)
Lemma C3_one_entry_per_pair_witness :
  let H := Sample.host [] in
  let m := pair_of Sample.a_post Sample.b_page in
  let history :=
    [Dequeue; Settle m (Sample.links Sample.a_post) 1000;
     Submit 86401000 Sample.post Sample.body] in
  let st' := fst (validateMention Sample.gone 86402000 (run history Sample.pending)) in
  unique_pairs (webmentions (run history Sample.pending))
  /\ unique_pairs (webmentions st')
  /\ exists e, entries_for m (webmentions st') = [e] /\ validatedAt e = Some 86402000.
Proof.
  intros H m history.
  pose proof (@C3_one_entry_per_pair H Sample.pending history) as Hthm.
  destruct Hthm as [Huniq Htwice].
  - apply NoDup_nil_2.
  - split; [exact Huniq|].
    apply (Htwice m [] Sample.gone 86402000).
    + vm_compute. reflexivity.
    + reflexivity.
Defined.

(** ** The verifier: writes and failures *)

(** What a run writes, for every outcome: nothing on an empty queue; on a
    non-empty one the store to the notifications file after a recorded
    outcome, the counts to the failures file after a counted one, and
    nothing when the body of a 2xx response cannot be read. *)
Lemma validateMention_written fetch now st :
  snd (validateMention fetch now st)
  = match queue st with
    | [] => []
    | m :: _ =>
        if recorded (fetch (source m))
        then [(mentionsFile,
               ReceivedJSON (webmentions (fst (validateMention fetch now st))))]
        else if counted (fetch (source m))
        then [(failureFile,
               FailuresJSON (failures (fst (validateMention fetch now st))))]
        else []
    end.
Proof.
  unfold validateMention. destruct (queue st) as [|m rest]; [done|].
  unfold settle. destruct (fetch (source m)) as [|status data|status]; [done| |]; simpl;
    (destruct (ok status); [done|]; simpl; by destruct (status =? 410)).
Qed.

(** C4 (the code departs from it).  The pair is at the head of the queue;
    its source answers 200 and the read of the body fails, so
    [await response.text()] rejects.  The run has shifted the queue and
    ends there: it writes to neither file, records nothing and counts no
    failure, where a rejected fetch is caught and counted and every other
    branch writes once. *)
Theorem C4_unreadable_body_writes_nothing :
  queue Sample.pending = [pair_of Sample.a_post Sample.b_page]
  /\ Sample.unreadable Sample.a_post = Unreadable 200
  /\ validateMention Sample.unreadable 1000 Sample.pending = (Sample.empty, [])
  /\ validateMention Sample.down 1000 Sample.pending
     = ({| queue := []; webmentions := []; failures := {[ Sample.a_post := 1 ]} |},
        [(failureFile, FailuresJSON {[ Sample.a_post := 1 ]})]).
Proof. vm_compute. done. Qed.

(** C5.  When the fetch of the head's source is rejected or answers with a
    status that is neither 2xx nor 410, the run leaves the store as it
    was, sets the failure count of that source to one more than before
    (to 1 when the source had none), leaves the other counts alone, and
    writes the failures file only. *)
Theorem C5_failure_counts_and_keeps_store fetch now st m rest :
  queue st = m :: rest ->
  counted (fetch (source m)) = true ->
  let st' := fst (validateMention fetch now st) in
  webmentions st' = webmentions st
  /\ failures st' = <[source m := counter st (source m) + 1]> (failures st)
  /\ (failures st !! source m = None -> failures st' !! source m = Some 1)
  /\ snd (validateMention fetch now st) = [(failureFile, FailuresJSON (failures st'))].
Proof.
  intros Hq Hcount.
  rewrite (validateMention_run fetch now st m rest Hq).
  rewrite (settle_counted m _ now (shift st) Hcount).
  simpl. split; [done|]. split; [done|]. split; [|done].
  intros Hnone. unfold counter. simpl. rewrite Hnone. simpl. apply lookup_insert_eq.
Qed.

Lemma C5_failure_counts_and_keeps_store_witness :
  let st' := fst (validateMention Sample.down 1000 Sample.pending) in
  webmentions st' = webmentions Sample.pending
  /\ failures st'
     = <[Sample.a_post := counter Sample.pending Sample.a_post + 1]>
         (failures Sample.pending)
  /\ (failures Sample.pending !! Sample.a_post = None ->
      failures st' !! Sample.a_post = Some 1)
  /\ snd (validateMention Sample.down 1000 Sample.pending)
     = [(failureFile, FailuresJSON (failures st'))].
Proof.
  apply (C5_failure_counts_and_keeps_store Sample.down 1000 Sample.pending
           (pair_of Sample.a_post Sample.b_page) []).
  - reflexivity.
  - reflexivity.
Defined.

(** ** The admission policy *)

Lemma unique_pairs_same_key (l : list Webmention) x y :
  unique_pairs l -> x ∈ l -> y ∈ l -> key x = key y -> x = y.
Proof.
  unfold unique_pairs. induction l as [|z l IH]; intros Huniq Hx Hy Hkey.
  - inversion Hx.
  - rewrite fmap_cons in Huniq. apply NoDup_cons in Huniq as [Hnotin Huniq].
    apply elem_of_cons in Hx as [-> | Hx]; apply elem_of_cons in Hy as [-> | Hy].
    + done.
    + exfalso. apply Hnotin. rewrite Hkey. by apply list_elem_of_fmap_2.
    + exfalso. apply Hnotin. rewrite <- Hkey. by apply list_elem_of_fmap_2.
    + by apply IH.
Qed.

Lemma find_some_elem m (l : list Webmention) e :
  find (isDuplicate m) l = Some e -> e ∈ l /\ same_pair m e.
Proof.
  intros Hfind. destruct (find_some_first _ _ _ Hfind) as (before & after & -> & Hsame & _).
  split; [|done]. apply elem_of_app. right. left.
Qed.

(** The failure-budget test [failedValidations && failedValidations > 5]. *)
Lemma budget_exceeded st s :
  match failures st !! s with
  | Some n => truthy_number n && (5 <? n)
  | None => false
  end = true
  <-> 5 < counter st s.
Proof.
  unfold counter, truthy_number. destruct (failures st !! s) as [n|]; simpl.
  - rewrite andb_true_iff, negb_true_iff, Z.eqb_neq, Z.ltb_lt. lia.
  - split; [done | lia].
Qed.

(** What [isEnqueueable] computes, on any store: the freshness gate looks
    at the first stored entry for the pair. *)
Lemma isEnqueueable_false st now m :
  isEnqueueable st now m = false
  <-> (exists q, q ∈ queue st /\ same_pair m q)
      \/ 5 < counter st (source m)
      \/ (exists e at_,
            find (isDuplicate m) (webmentions st) = Some e
            /\ validatedAt e = Some at_ /\ now - at_ < 86400000).
Proof.
  unfold isEnqueueable.
  destruct (find (isDuplicate m) (queue st)) as [q|] eqn:Hqueue.
  { split; [intros _ | done]. left. exists q. by apply find_some_elem. }
  pose proof (budget_exceeded st (source m)) as Hbudget.
  destruct (match failures st !! source m with
            | Some n => truthy_number n && (5 <? n)
            | None => false
            end) eqn:Hgate.
  { split; [intros _ | done]. right. left. by apply Hbudget. }
  assert (Hq : ~ exists q, q ∈ queue st /\ same_pair m q).
  { intros (q & Hin & Hsame). rewrite find_none_iff in Hqueue. by apply (Hqueue q). }
  assert (Hb : ~ 5 < counter st (source m)).
  { intros Hlt. apply Hbudget in Hlt. discriminate. }
  destruct (find (isDuplicate m) (webmentions st)) as [e|] eqn:Hstore.
  - destruct (validatedAt e) as [at_|] eqn:Hat.
    + unfold WINDOW.
      destruct (Z.ltb_spec (now - at_) (24 * 60 * 60 * 1000)) as [Hlt | Hge].
      * split; [intros _ | done]. right. right. exists e, at_.
        split; [done|]. split; [done|]. lia.
      * split; [done|]. intros [Hq' | [Hb' | (e' & at' & [= <-] & Hat' & Hlt)]];
          [by destruct Hq | by destruct Hb |].
        rewrite Hat in Hat'. injection Hat' as <-. lia.
    + split; [done|]. intros [Hq' | [Hb' | (e' & at' & [= <-] & Hat' & _)]];
        [by destruct Hq | by destruct Hb | congruence].
  - split; [done|]. intros [Hq' | [Hb' | (e' & at' & Hfind & _)]];
      [by destruct Hq | by destruct Hb | done].
Qed.

(** C6.  On a store with at most one entry per pair, [isEnqueueable]
    answers [false] exactly when the pair is already in the queue, or the
    failure count of its source exceeds 5, or the store has an entry for
    the pair whose [validatedAt] is less than 24 hours (86400000 ms)
    before now; otherwise it answers [true]. *)
Theorem C6_isEnqueueable_gates st now m :
  unique_pairs (webmentions st) ->
  isEnqueueable st now m = false
  <-> (exists q, q ∈ queue st /\ same_pair m q)
      \/ 5 < counter st (source m)
      \/ (exists e at_,
            e ∈ webmentions st /\ same_pair m e
            /\ validatedAt e = Some at_ /\ now - at_ < 86400000).
Proof.
  intros Huniq. rewrite isEnqueueable_false. split.
  - intros [Hq | [Hb | (e & at_ & Hfind & Hat & Hlt)]]; [by left | by right; left |].
    right. right. apply find_some_elem in Hfind as [Hin Hsame]. eauto 10.
  - intros [Hq | [Hb | (e & at_ & Hin & Hsame & Hat & Hlt)]]; [by left | by right; left |].
    right. right. exists e, at_. split; [|done].
    destruct (find (isDuplicate m) (webmentions st)) as [e'|] eqn:Hfind.
    + apply find_some_elem in Hfind as [Hin' Hsame'].
      f_equal. apply (unique_pairs_same_key (webmentions st)); try done.
      apply same_pair_key in Hsame, Hsame'. congruence.
    + rewrite find_none_iff in Hfind. by destruct (Hfind e).
Qed.

(** C6 at a pair verified at time 0 and submitted again one second later,
    the queue being empty. *)
Lemma C6_isEnqueueable_gates_witness :
  let st := {| queue := []; webmentions := webmentions Sample.verified_mentioned;
               failures := ∅ |} in
  let m := pair_of Sample.a_post Sample.b_page in
  isEnqueueable st 1000 m = false
  <-> (exists q, q ∈ queue st /\ same_pair m q)
      \/ 5 < counter st (source m)
      \/ (exists e at_,
            e ∈ webmentions st /\ same_pair m e
            /\ validatedAt e = Some at_ /\ 1000 - at_ < 86400000).
Proof.
  intros st m. apply (C6_isEnqueueable_gates st 1000 m).
  unfold unique_pairs. simpl. apply NoDup_singleton.
Defined.

(** ** The validator *)

Section Validator.

Context `{Host}.

Lemma toMention_some body m :
  toMention body = Some m
  <-> exists s t,
        URLSearchParams_get body "source" = Some s
        /\ URLSearchParams_get body "target" = Some t
        /\ s <> "" /\ t <> "" /\ m = pair_of s t.
Proof.
  unfold toMention, truthy_string.
  destruct (URLSearchParams_get body "source") as [[|c s]|];
    destruct (URLSearchParams_get body "target") as [[|c' t]|]; simpl;
    (split;
     [intros Hm; try discriminate Hm; injection Hm as <-; eauto 10
     |intros (s' & t' & Hs & Ht & Hs' & Ht' & ->); congruence]).
Qed.

Lemma toMention_none body :
  toMention body = None
  <-> URLSearchParams_get body "source" = None
      \/ URLSearchParams_get body "source" = Some ""
      \/ URLSearchParams_get body "target" = None
      \/ URLSearchParams_get body "target" = Some "".
Proof.
  unfold toMention, truthy_string.
  destruct (URLSearchParams_get body "source") as [[|c s]|];
    destruct (URLSearchParams_get body "target") as [[|c' t]|]; simpl;
    (split; [intros Hm; try discriminate Hm; tauto | intros [? | [? | [? | ?]]]; congruence]).
Qed.

(** The allow-list rule does not fire exactly when the list is empty or
    one of its entries is a prefix of the target. *)
Lemma allow_list_spec t :
  (0 <? Z.of_nat (length ALLOWED_TARGET_BASE_URLS))
  && negb (existsb (fun allowedBaseUrl => startsWith t allowedBaseUrl)
             ALLOWED_TARGET_BASE_URLS) = false
  <-> ALLOWED_TARGET_BASE_URLS = []
      \/ exists allowedBaseUrl,
           allowedBaseUrl ∈ ALLOWED_TARGET_BASE_URLS
           /\ String.prefix allowedBaseUrl t = true.
Proof.
  rewrite andb_false_iff, negb_false_iff, Z.ltb_ge, existsb_exists.
  unfold startsWith. split.
  - intros [Hlen | (p & Hin & Hp)].
    + left. destruct ALLOWED_TARGET_BASE_URLS; [done | simpl in Hlen; lia].
    + right. exists p. split; [by apply list_elem_of_In | done].
  - intros [-> | (p & Hin & Hp)].
    + left. simpl. lia.
    + right. exists p. split; [by apply list_elem_of_In | done].
Qed.

(** [isValid] never throws, and answers [true] exactly on a valid request
    with a valid pair: each predicate that dereferences [headers] or
    [mention] comes after the one that rejects their absence. *)
Lemma isValid_spec req m :
  (isValid req m = Normal true
   /\ valid_request req /\ exists mm, m = Some mm /\ valid_mention mm)
  \/ (isValid req m = Normal false
      /\ ~ (valid_request req /\ exists mm, m = Some mm /\ valid_mention mm)).
Proof.
  unfold isValid, BAD_REQUEST_PREDICATES, valid_request, valid_mention, of_mention.
  simpl.
  destruct (String.eqb_spec (method req) "POST") as [Hmethod | Hmethod]; simpl;
    [|right; split; [done | tauto]].
  destruct (headers req) as [h|]; simpl;
    [|right; split; [done | intros [[_ (h & Hh & _)] _]; done]].
  destruct (h !! "content-type") as [ct|] eqn:Hct; simpl;
    [|right; split; [done | intros [[_ (h' & [= <-] & Hct')] _]; congruence]].
  destruct (String.eqb_spec ct "application/x-www-form-urlencoded") as [-> | Hform];
    simpl;
    [|right; split; [done | intros [[_ (h' & [= <-] & Hct')] _]; congruence]].
  destruct m as [mm|]; simpl;
    [|right; split; [done | intros [_ (mm & Hmm & _)]; done]].
  destruct (String.eqb_spec (target mm) (source mm)) as [Heq | Hneq]; simpl;
    [right; split; [done | intros [_ (mm' & [= <-] & Hne & _)]; congruence]|].
  destruct (URL_canParse (source mm)) eqn:Hsource; simpl;
    [|right; split; [done | intros [_ (mm' & [= <-] & _ & Hs & _)]; congruence]].
  destruct (URL_canParse (target mm)) eqn:Htarget; simpl;
    [|right; split; [done | intros [_ (mm' & [= <-] & _ & _ & Ht & _)]; congruence]].
  pose proof (allow_list_spec (target mm)) as Hallow.
  destruct ((0 <? Z.of_nat (length ALLOWED_TARGET_BASE_URLS))
            && negb (existsb (fun allowedBaseUrl => startsWith (target mm) allowedBaseUrl)
                       ALLOWED_TARGET_BASE_URLS)) eqn:Hlist; simpl.
  { right. split; [done|]. intros [_ (mm' & [= <-] & _ & _ & _ & Hl & _)].
    apply Hallow in Hl. discriminate. }
  unfold startsWith.
  destruct (String.prefix "https://" (target mm)) eqn:Hhttps; simpl.
  { left. split; [done|]. split; [eauto|]. exists mm. split; [done|].
    split; [congruence|]. split; [done|]. split; [done|].
    split; [by apply Hallow | by left]. }
  destruct (String.prefix "http://" (target mm)) eqn:Hhttp; simpl.
  { left. split; [done|]. split; [eauto|]. exists mm. split; [done|].
    split; [congruence|]. split; [done|]. split; [done|].
    split; [by apply Hallow | by right]. }
  right. split; [done|].
  intros [_ (mm' & [= <-] & _ & _ & _ & _ & [Hs | Hs])]; congruence.
Qed.

Lemma passes_rules_iff req body :
  passes_rules req body
  <-> valid_request req /\ exists mm, toMention body = Some mm /\ valid_mention mm.
Proof.
  unfold passes_rules. split.
  - intros [Hreq (s & t & Hs & Ht & Hs' & Ht' & Hvalid)]. split; [done|].
    exists (pair_of s t). split; [|done]. apply toMention_some. eauto 10.
  - intros [Hreq (mm & Hmm & Hvalid)]. split; [done|].
    apply toMention_some in Hmm as (s & t & Hs & Ht & Hs' & Ht' & ->). eauto 10.
Qed.

(** C7, as amended.  The validator never throws.  It accepts exactly when
    the method is POST, the headers are present and the [content-type]
    header is the very string [application/x-www-form-urlencoded], the
    body binds [source] and [target] to non-empty strings, the two differ,
    both pass [URL.canParse], the target starts with an entry of the
    allow-list when the list is non-empty, and the target string starts
    with [https://] or [http://] as written, in lower case; in every other
    case the handler answers 400 and leaves the state as it was. *)
Theorem C7_isValid_accepts_exactly req body :
  (isValid req (toMention body) = Normal true <-> passes_rules req body)
  /\ (isValid req (toMention body) = Normal true
      \/ (isValid req (toMention body) = Normal false
          /\ forall st now, handle st now req body = (st, 400))).
Proof.
  rewrite passes_rules_iff.
  destruct (isValid_spec req (toMention body)) as [(Hvalid & Hyes) | (Hvalid & Hno)].
  - split; [|by left]. by split.
  - split.
    + split; [congruence | done].
    + right. split; [done|]. intros st now. unfold handle. by rewrite Hvalid.
Qed.

(** C10.  A body that binds [source] or [target] to the empty string
    gives no mention and a 400 answer, the state unchanged; a body that
    lacks one of the two parameters is treated the same way. *)
Theorem C10_empty_parameter_rejected req body st now :
  URLSearchParams_get body "source" = Some ""
  \/ URLSearchParams_get body "target" = Some "" ->
  toMention body = None
  /\ handle st now req body = (st, 400)
  /\ forall body',
       URLSearchParams_get body' "source" = None
       \/ URLSearchParams_get body' "target" = None ->
       toMention body' = toMention body
       /\ handle st now req body' = handle st now req body.
Proof.
  intros Hempty.
  assert (Hrejected : forall b, toMention b = None -> handle st now req b = (st, 400)).
  { intros b Hb. unfold handle. rewrite Hb.
    destruct (isValid_spec req None) as [(_ & _ & mm & Hmm & _) | (-> & _)]; done. }
  assert (Hnone : toMention body = None).
  { apply toMention_none. tauto. }
  split; [done|]. split; [by apply Hrejected|].
  intros body' Hmissing.
  assert (Hnone' : toMention body' = None).
  { apply toMention_none. tauto. }
  rewrite Hnone, Hnone', !Hrejected; done.
Qed.

End Validator.

(** C7, counterexample.  A target whose scheme is written [HTTPS], and a
    content type followed by a charset parameter: each request meets every
    rule as the claim words it (the scheme is https, the content type is
    the form encoding), and the validator refuses both. *)
Lemma C7_counterexample :
  ~ @validator_as_claimed (Sample.host []) Sample.post Sample.body_upper_scheme
  /\ ~ @validator_as_claimed (Sample.host []) Sample.post_with_charset Sample.body.
Proof.
  split; intros [_ Haccepts].
  - assert (Hno : @isValid (Sample.host []) Sample.post
                    (@toMention (Sample.host []) Sample.body_upper_scheme)
                  = Normal false) by (vm_compute; reflexivity).
    rewrite Haccepts in Hno; [discriminate|].
    split; [reflexivity|]. split.
    + eexists _, _. split; [reflexivity|]. split; reflexivity.
    + exists "https://a.example/post", "HTTPS://b.example/page".
      split; [vm_compute; reflexivity|]. split; [vm_compute; reflexivity|].
      split; [discriminate|]. split; [discriminate|]. split; [discriminate|].
      split; [reflexivity|]. split; [reflexivity|]. split; [by left|].
      right. reflexivity.
  - assert (Hno : @isValid (Sample.host []) Sample.post_with_charset
                    (@toMention (Sample.host []) Sample.body)
                  = Normal false) by (vm_compute; reflexivity).
    rewrite Haccepts in Hno; [discriminate|].
    split; [reflexivity|]. split.
    + eexists _, _. split; [reflexivity|]. split; [reflexivity|]. reflexivity.
    + exists "https://a.example/post", "https://b.example/page".
      split; [vm_compute; reflexivity|]. split; [vm_compute; reflexivity|].
      split; [discriminate|]. split; [discriminate|]. split; [discriminate|].
      split; [reflexivity|]. split; [reflexivity|]. split; [by left|].
      right. reflexivity.
Qed.

Lemma C10_empty_parameter_rejected_witness :
  let H := Sample.host [] in
  toMention Sample.body_empty_source = None
  /\ handle Sample.empty 1000 Sample.post Sample.body_empty_source = (Sample.empty, 400)
  /\ forall body',
       URLSearchParams_get body' "source" = None
       \/ URLSearchParams_get body' "target" = None ->
       toMention body' = toMention Sample.body_empty_source
       /\ handle Sample.empty 1000 Sample.post body'
          = handle Sample.empty 1000 Sample.post Sample.body_empty_source.
Proof.
  intros H.
  apply (@C10_empty_parameter_rejected H Sample.post Sample.body_empty_source
           Sample.empty 1000).
  left. reflexivity.
Defined.

(** The allow-list scenario of the specification: with the list
    [["https://b.example/"]], a submission for a target on another site
    is answered 400, one for a target under the prefix 202. *)
Example allow_list_enforced :
  let H := Sample.host ["https://b.example/"] in
  handle Sample.empty 0 Sample.post
    "source=https://a.example/post&target=https://c.example/x"
  = (Sample.empty, 400)
  /\ snd (handle Sample.empty 0 Sample.post Sample.body) = 202.
Proof. vm_compute. done. Qed.

(** ** The failure counter along a history *)

Section History.

Context `{Host}.

Lemma step_counter st ev s :
  counter (step st ev) s = counter st s + (if fails_for s ev then 1 else 0).
Proof.
  destruct ev as [now req body | | m response now]; simpl.
  { unfold counter. rewrite handle_failures. lia. }
  { unfold counter. simpl. lia. }
  destruct (counted response) eqn:Hcount.
  - rewrite (settle_counted m response now st Hcount). simpl.
    rewrite andb_true_r. unfold counter at 1. simpl.
    case_bool_decide as Hs.
    + subst s. rewrite lookup_insert_eq. done.
    + rewrite lookup_insert_ne by done. fold (counter st s). lia.
  - rewrite andb_false_r.
    destruct (outcome_kinds response) as [Hrec | [Hyes | (status & -> & Hok)]].
    + unfold counter. rewrite (settle_failures_recorded m response now st Hrec). lia.
    + congruence.
    + rewrite settle_unreadable by done. simpl. lia.
Qed.

Lemma failed_runs_cons s ev evs :
  failed_runs s (ev :: evs) = (if fails_for s ev then 1 else 0) + failed_runs s evs.
Proof.
  unfold failed_runs. simpl. destruct (fails_for s ev); simpl length; lia.
Qed.


End History.

(** A failed run followed by a successful one on the same source: the
    count stays at 1. *)
Example failure_then_success :
  let H := Sample.host [] in
  let m := pair_of Sample.a_post Sample.b_page in
  let history :=
    [Submit 0 Sample.post Sample.body; Dequeue; Settle m Rejected 500;
     Submit 1000 Sample.post Sample.body; Dequeue;
     Settle m (Sample.links Sample.a_post) 1500] in
  counter (run history Sample.empty) Sample.a_post = 1
  /\ failed_runs Sample.a_post history = 1
  /\ length (webmentions (run history Sample.empty)) = 1%nat.
Proof. vm_compute. done. Qed.

(** ** Identity is equality of strings *)

Lemma find_entries_for m (l : list Webmention) :
  find (isDuplicate m) (entries_for m l) = find (isDuplicate m) l.
Proof.
  unfold find, entries_for. induction l as [|x l IH]; [done|].
  destruct (decide (same_pair m x)) as [Hsame | Hother].
  - rewrite filter_cons_True by done. simpl.
    apply isDuplicate_spec in Hsame. by rewrite Hsame.
  - rewrite filter_cons_False by done. simpl.
    apply isDuplicate_false in Hother. by rewrite Hother.
Qed.

Lemma entries_of_others_app m (l l' : list Webmention) :
  entries_of_others m (l ++ l') = entries_of_others m l ++ entries_of_others m l'.
Proof. apply filter_app. Qed.

Lemma entries_of_others_same m e (l : list Webmention) :
  same_pair m e -> entries_of_others m (e :: l) = entries_of_others m l.
Proof. intros Hsame. unfold entries_of_others. apply filter_cons_False. tauto. Qed.

(** C9.  [isDuplicate] holds exactly when the two [source] strings are
    equal and the two [target] strings are equal.  Accordingly, admission
    of [m] looks only at the queue entries and store entries that carry
    the very strings of [m] and at the count filed under the very string
    [source m]: every entry or count under other strings can be dropped
    without changing the answer.  And the end of a verifier run on [m]
    leaves the store entries of every textually different pair as they
    were. *)
Theorem C9_identity_is_string_equality m :
  (forall e, isDuplicate m e = true <-> source e = source m /\ target e = target m)
  /\ (forall st now, isEnqueueable st now m = isEnqueueable (only_for m st) now m)
  /\ (forall response now st,
        entries_of_others m (webmentions (fst (settle m response now st)))
        = entries_of_others m (webmentions st)).
Proof.
  split; [intros e; apply isDuplicate_spec|]. split.
  - intros st now. unfold isEnqueueable, only_for. simpl.
    rewrite !find_entries_for.
    destruct (find (isDuplicate m) (queue st)); [done|].
    destruct (failures st !! source m) as [n|] eqn:Hcount.
    + by rewrite lookup_singleton_eq.
    + by rewrite lookup_empty.
  - intros response now st.
    destruct (outcome_kinds response) as [Hrec | [Hcount | (status & -> & Hok)]].
    + destruct (settle_recorded m response now st Hrec)
        as (update & fresh & Hupdate & Hfresh & _ & _ & ->).
      destruct (upsert_cases m update fresh (webmentions st))
        as [[_ ->] | (before & e & after & _ & -> & Hsame & _ & ->)].
      * rewrite entries_of_others_app, entries_of_others_same
          by (by apply same_pair_key).
        apply app_nil_r.
      * rewrite !entries_of_others_app, !entries_of_others_same; try done.
        apply same_pair_key. rewrite Hupdate. by apply same_pair_key.
    + by rewrite settle_counted.
    + by rewrite settle_unreadable.
Qed.

(** The page with and without a trailing slash: the stored, freshly
    verified pair does not hold back the other spelling, whose verification
    appends a second entry. *)
Example trailing_slash_is_another_pair :
  let st := {| queue := []; webmentions := webmentions Sample.verified_mentioned;
               failures := ∅ |} in
  let m := pair_of Sample.a_post_slash Sample.b_page in
  isEnqueueable st 1000 (pair_of Sample.a_post Sample.b_page) = false
  /\ isEnqueueable st 1000 m = true
  /\ length (webmentions
               (fst (validateMention Sample.links 2000
                       {| queue := [m]; webmentions := webmentions st;
                          failures := ∅ |}))) = 2%nat.
Proof. vm_compute. done. Qed.

(** ** The handler: what a request can do *)

Section Handler.

Context `{Host}.

(** X1.  The handler has three outcomes and no other.  A request that
    breaks a rule is answered 400; one that passes the rules is answered
    202, with its pair pushed at the tail of the queue, when the pair is
    enqueueable, and 500 when it is not.  Only the 202 changes the state,
    and it changes the queue only: the [catch] of the handler is never
    taken. *)
Theorem handle_outcomes st now req body :
  (~ passes_rules req body /\ handle st now req body = (st, 400))
  \/ (passes_rules req body
      /\ exists m,
           toMention body = Some m
           /\ ((isEnqueueable st now m = true
                /\ handle st now req body = (pushed m st, 202))
               \/ (isEnqueueable st now m = false
                   /\ handle st now req body = (st, 500)))).
Proof.
  unfold handle.
  destruct (isValid_spec req (toMention body))
    as [(-> & Hreq & m & Hm & Hvalid) | (-> & Hno)].
  - right. split; [apply passes_rules_iff; eauto|].
    exists m. split; [done|]. rewrite Hm.
    destruct (isEnqueueable st now m); [left | right]; done.
  - left. split; [|done]. intros Hpass. by apply passes_rules_iff in Hpass.
Qed.

Lemma toMention_admitted body m :
  toMention body = Some m -> valid_mention m -> admitted m.
Proof.
  intros Hm Hvalid. apply toMention_some in Hm as (s & t & _ & _ & Hs & Ht & ->).
  done.
Qed.

Lemma handle_queue st now req body :
  queue (fst (handle st now req body)) = queue st
  \/ exists m,
       toMention body = Some m /\ valid_mention m
       /\ isEnqueueable st now m = true
       /\ queue (fst (handle st now req body)) = queue st ++ [m].
Proof.
  unfold handle.
  destruct (isValid_spec req (toMention body))
    as [(-> & Hreq & m & Hm & Hvalid) | (-> & Hno)]; [|by left].
  rewrite Hm. destruct (isEnqueueable st now m) eqn:Hadmit; [|by left].
  right. by exists m.
Qed.

Lemma isEnqueueable_not_queued st now m :
  isEnqueueable st now m = true -> forall q, q ∈ queue st -> ~ same_pair m q.
Proof.
  unfold isEnqueueable.
  destruct (find (isDuplicate m) (queue st)) eqn:Hfind; [done|].
  intros _. by apply find_none_iff.
Qed.

Lemma step_queue_unique st ev :
  unique_pairs (queue st) -> unique_pairs (queue (step st ev)).
Proof.
  intros Huniq. destruct ev as [now req body | | m response now]; simpl.
  - destruct (handle_queue st now req body) as [-> | (m & _ & _ & Hadmit & ->)]; [done|].
    unfold unique_pairs in *. rewrite fmap_app. simpl.
    apply NoDup_app. split; [done|]. split; [|apply NoDup_singleton].
    intros k Hk Hk'. apply list_elem_of_singleton in Hk'. subst k.
    apply list_elem_of_fmap in Hk as (q & Hkey & Hq).
    apply (isEnqueueable_not_queued st now m Hadmit q Hq).
    apply same_pair_key. congruence.
  - unfold unique_pairs in *. destruct (queue st) as [|q rest]; [done|].
    simpl. rewrite fmap_cons in Huniq. by apply NoDup_cons in Huniq as [_ ?].
  - by rewrite settle_queue.
Qed.

(** X2.  The queue never holds the same pair twice: starting from a queue
    without repeated pairs (the empty queue of a fresh process, say), no
    history of requests and verifier turns produces one with a repeated
    pair. *)
Theorem queue_never_repeats_a_pair evs st :
  unique_pairs (queue st) -> unique_pairs (queue (run evs st)).
Proof.
  revert st. induction evs as [|ev evs IH]; intros st Huniq; [done|].
  simpl. apply IH. by apply step_queue_unique.
Qed.

Lemma step_queue_admitted st ev :
  Forall admitted (queue st) -> Forall admitted (queue (step st ev)).
Proof.
  intros Hall. destruct ev as [now req body | | m response now]; simpl.
  - destruct (handle_queue st now req body) as [-> | (m & Hm & Hvalid & _ & ->)]; [done|].
    apply Forall_app. split; [done|].
    apply Forall_singleton. by apply (toMention_admitted body).
  - destruct (queue st) as [|q rest]; [done|]. simpl. by apply Forall_cons in Hall as [_ ?].
  - by rewrite settle_queue.
Qed.

(** X3.  Everything the verifier will fetch went through the validator:
    in a process started with an empty queue, every queued object is a
    bare [{source, target}] pair with non-empty, distinct strings that
    both parse as URLs, whose target passes the allow-list and starts with
    [https://] or [http://]. *)
Theorem queue_holds_admitted_pairs evs st :
  queue st = [] -> Forall admitted (queue (run evs st)).
Proof.
  intros Hempty.
  assert (Hall : Forall admitted (queue st)) by (rewrite Hempty; constructor).
  clear Hempty. revert st Hall.
  induction evs as [|ev evs IH]; intros st Hall; [done|].
  simpl. apply IH. by apply step_queue_admitted.
Qed.

Lemma step_still_queued st ev m :
  ev <> Dequeue -> m ∈ queue st -> m ∈ queue (step st ev).
Proof.
  intros Hev Hin. destruct ev as [now req body | | m' response now]; simpl.
  - destruct (handle_queue st now req body) as [-> | (m' & _ & _ & _ & ->)]; [done|].
    apply elem_of_app. by left.
  - done.
  - by rewrite settle_queue.
Qed.

(** X4.  A pair that was just admitted is refused, with a 500 and no
    change of state, for as long as no verifier run has shifted the
    queue: whatever requests arrive and whatever earlier runs complete in
    between, and whatever the time of the resubmission. *)
Theorem resubmission_while_queued st now req body st1 evs now' :
  handle st now req body = (st1, 202) ->
  Forall (fun ev => ev <> Dequeue) evs ->
  handle (run evs st1) now' req body = (run evs st1, 500).
Proof.
  intros Hfirst Hevs.
  destruct (handle_outcomes st now req body)
    as [[_ Heq] | (Hpass & m & Hm & [[_ Heq] | [_ Heq]])];
    rewrite Hfirst in Heq; try (by injection Heq); [].
  injection Heq as ->.
  assert (Hin : m ∈ queue (run evs (pushed m st))).
  { assert (Hstart : m ∈ queue (pushed m st)).
    { simpl. apply elem_of_app. right. left. }
    revert Hstart. generalize (pushed m st).
    induction Hevs as [|ev evs Hev _ IH]; intros st0 Hstart; [done|].
    simpl. apply IH. by apply step_still_queued. }
  destruct (handle_outcomes (run evs (pushed m st)) now' req body)
    as [[Hno _] | (_ & m' & Hm' & [[Hadmit _] | [_ Heq]])]; [done | | ].
  - rewrite Hm in Hm'. injection Hm' as <-.
    exfalso. by apply (isEnqueueable_not_queued _ _ _ Hadmit m Hin).
  - done.
Qed.

Lemma run_counter_le evs st s : counter st s <= counter (run evs st) s.
Proof.
  revert st. induction evs as [|ev evs IH]; intros st; [simpl; lia|].
  simpl. specialize (IH (step st ev)). rewrite step_counter in IH.
  destruct (fails_for s ev); lia.
Qed.

(** X5.  The failure budget is never given back.  Once the count of a
    source exceeds 5, every later submission naming that source, for any
    target and at any time, is answered 400 or 500 and leaves the state
    as it is, whatever happened in between. *)
Theorem budget_exhausted_for_good st s evs now req body :
  5 < counter st s ->
  URLSearchParams_get body "source" = Some s ->
  handle (run evs st) now req body = (run evs st, 400)
  \/ handle (run evs st) now req body = (run evs st, 500).
Proof.
  intros Hover Hsource.
  destruct (handle_outcomes (run evs st) now req body)
    as [[_ Heq] | (_ & m & Hm & [[Hadmit _] | [_ Heq]])]; [by left | | by right].
  exfalso.
  apply toMention_some in Hm as (s' & t & Hs' & _ & _ & _ & ->).
  rewrite Hsource in Hs'. injection Hs' as <-.
  assert (Hrefused : isEnqueueable (run evs st) now (pair_of s t) = false).
  { apply isEnqueueable_false. right. left. simpl.
    pose proof (run_counter_le evs st s). lia. }
  congruence.
Qed.

End Handler.

(** ** The store over time *)

Lemma kept_refl e : kept e e.
Proof. by unfold kept. Qed.

Lemma kept_trans e1 e2 e3 : kept e1 e2 -> kept e2 e3 -> kept e1 e3.
Proof.
  unfold kept. intros (Hk & Hv & Hm & Hd) (Hk' & Hv' & Hm' & Hd').
  split; [congruence|]. split; [congruence|]. split; [congruence|]. auto.
Qed.

Lemma assign_found_lookup {A} (p : A -> bool) f (l : list A) i x :
  l !! i = Some x ->
  assign_found p f l !! i = Some x \/ assign_found p f l !! i = Some (f x).
Proof.
  revert i. induction l as [|y l IH]; intros i Hi; [done|].
  simpl. destruct (p y).
  - destruct i as [|i]; simpl in *; [|by left].
    injection Hi as ->. by right.
  - destruct i as [|i]; simpl in *; [by left|]. by apply IH.
Qed.

Lemma upsert_lookup m update fresh (store : list Webmention) i e :
  store !! i = Some e ->
  upsert m update fresh store !! i = Some e
  \/ upsert m update fresh store !! i = Some (update e).
Proof.
  intros Hi. unfold upsert. destruct (find (isDuplicate m) store).
  - by apply assign_found_lookup.
  - left. by apply lookup_app_l_Some.
Qed.

Lemma settle_keeps m response now st i e :
  webmentions st !! i = Some e ->
  exists e', webmentions (fst (settle m response now st)) !! i = Some e' /\ kept e e'.
Proof.
  intros Hi.
  assert (Hgone : exists e',
             upsert m (mark_deleted now) (new_deleted now m) (webmentions st) !! i
             = Some e' /\ kept e e').
  { destruct (upsert_lookup m (mark_deleted now) (new_deleted now m) _ i e Hi)
      as [-> | ->];
      eexists; (split; [done|]); [apply kept_refl | by unfold kept]. }
  unfold settle.
  destruct response as [|status data|status];
    [exists e; split; [done | apply kept_refl]| |];
    (destruct (ok status); [|destruct (status =? 410)]); simpl;
    try done; try (exists e; split; [done | apply kept_refl]).
  destruct (upsert_lookup m (revalidate now (includes data (target m)))
              (new_mentioned now (includes data (target m)) m) _ i e Hi) as [-> | ->];
    eexists; (split; [done|]); [apply kept_refl | by unfold kept].
Qed.

Section Store.

Context `{Host}.

Lemma step_keeps st ev i e :
  webmentions st !! i = Some e ->
  exists e', webmentions (step st ev) !! i = Some e' /\ kept e e'.
Proof.
  intros Hi. destruct ev as [now req body | | m response now]; simpl.
  - rewrite handle_store. exists e. split; [done | apply kept_refl].
  - exists e. split; [done | apply kept_refl].
  - by apply settle_keeps.
Qed.

(** X6.  Nothing is ever taken out of the store or moved in it, and a
    stored entry keeps for good its pair, its [validated] and [mentioned]
    properties, and its [deleted] flag once set: after any history, the
    entry at each position of the initial store is still at that
    position, with those properties as they were.  In particular a source
    that was gone and is reachable again stays marked [deleted]. *)
Theorem store_entries_are_kept evs st i e :
  webmentions st !! i = Some e ->
  exists e', webmentions (run evs st) !! i = Some e' /\ kept e e'.
Proof.
  revert st e. induction evs as [|ev evs IH]; intros st e Hi.
  - exists e. split; [done | apply kept_refl].
  - destruct (step_keeps st ev i e Hi) as (e1 & Hi1 & Hkept1).
    destruct (IH (step st ev) e1 Hi1) as (e' & Hi' & Hkept').
    exists e'. split; [done|]. by apply (kept_trans e e1 e').
Qed.

End Store.

(** X7.  A recorded run closes the freshness window for its pair and
    nothing else does.  After a run on [m] with a 2xx or 410 outcome at
    time [now], [m] is refused at every time less than 24 hours after
    [now]; from 24 hours on it is admitted exactly when it is not queued
    and the count of its source is at most 5. *)
Theorem recorded_pair_is_fresh_for_a_day m response now st later :
  recorded response = true ->
  let st' := fst (settle m response now st) in
  (later - now < 86400000 -> isEnqueueable st' later m = false)
  /\ (86400000 <= later - now ->
      (isEnqueueable st' later m = true
       <-> (forall q, q ∈ queue st -> ~ same_pair m q)
           /\ counter st (source m) <= 5)).
Proof.
  intros Hrec st'.
  assert (Hfound : exists e, find (isDuplicate m) (webmentions st') = Some e
                              /\ validatedAt e = Some now).
  { subst st'.
    destruct (settle_recorded m response now st Hrec)
      as (update & fresh & Hupdate & Hfresh & Hat & Hat' & ->).
    rewrite find_upsert by done. eexists. split; [done|].
    by destruct (find (isDuplicate m) (webmentions st)). }
  destruct Hfound as (e & Hfind & Hat).
  assert (Hqueue : queue st' = queue st) by apply settle_queue.
  assert (Hcount : counter st' (source m) = counter st (source m)).
  { unfold counter. subst st'. by rewrite settle_failures_recorded. }
  pose proof (isEnqueueable_false st' later m) as Hspec.
  rewrite Hqueue, Hcount, Hfind in Hspec.
  split.
  - intros Hearly. apply Hspec. right. right. exists e, now. done.
  - intros Hlate. split.
    + intros Hadmit. split.
      * intros q Hq Hsame. assert (isEnqueueable st' later m = false); [|congruence].
        apply Hspec. left. eauto.
      * destruct (Z.le_gt_cases (counter st (source m)) 5) as [|Hover]; [done|].
        assert (isEnqueueable st' later m = false); [|congruence].
        apply Hspec. right. left. lia.
    + intros [Hq Hbudget].
      apply not_false_iff_true. intros Hadmit.
      apply Hspec in Hadmit
        as [(q & Hin & Hsame) | [Hover | (e' & at' & [= <-] & Hat' & Hlt)]].
      * by destruct (Hq q).
      * lia.
      * rewrite Hat in Hat'. injection Hat' as <-. lia.
Qed.

(** ** The timer *)

Lemma validateMention_queue fetch now st :
  queue (fst (validateMention fetch now st)) = tail (queue st).
Proof.
  unfold validateMention. destruct (queue st) as [|m rest] eqn:Hq; simpl.
  - by rewrite Hq.
  - rewrite settle_queue. simpl. by rewrite Hq.
Qed.

Lemma validateMention_writes fetch now st :
  (length (snd (validateMention fetch now st))
   <= match queue st with [] => 0 | _ :: _ => 1 end)%nat
  /\ (bodies_readable fetch ->
      length (snd (validateMention fetch now st))
      = match queue st with [] => 0%nat | _ :: _ => 1%nat end).
Proof.
  rewrite validateMention_written. destruct (queue st) as [|m rest]; [done|].
  destruct (outcome_kinds (fetch (source m))) as [Hrec | [Hcount | (status & Hr & Hok)]].
  - by rewrite Hrec.
  - rewrite (counted_not_recorded _ Hcount), Hcount. done.
  - rewrite Hr. simpl. rewrite Hok. simpl. split; [lia|].
    intros Hreadable. specialize (Hreadable _ _ Hr). congruence.
Qed.

(** X8.  The verifier works the queue strictly from the front, one entry
    per tick.  After [n] uninterrupted runs the queue is what it was
    without its first [n] entries, the rest in their order.  The runs have
    made at most one write per entry taken, so at most [n] writes and at
    most as many as the queue was long; and exactly that many when no 2xx
    response of the series had an unreadable body. *)
Theorem runs_drain_the_queue_in_order ticks st :
  queue (fst (runs ticks st)) = drop (length ticks) (queue st)
  /\ (length (snd (runs ticks st)) <= Nat.min (length ticks) (length (queue st)))%nat
  /\ (Forall (fun tick => bodies_readable (fst tick)) ticks ->
      length (snd (runs ticks st)) = Nat.min (length ticks) (length (queue st))).
Proof.
  revert st. induction ticks as [|[fetch now] ticks IH]; intros st.
  - simpl. by rewrite drop_0.
  - simpl runs.
    pose proof (validateMention_queue fetch now st) as Hq.
    destruct (validateMention_writes fetch now st) as [Hle Heq].
    destruct (validateMention fetch now st) as [st1 written]. simpl in Hq, Hle, Heq.
    specialize (IH st1). destruct (runs ticks st1) as [st2 written']. simpl in *.
    destruct IH as (-> & IHle & IHeq). rewrite length_app, Hq.
    rewrite Hq in IHle, IHeq.
    destruct (queue st) as [|m rest]; simpl in *.
    + rewrite drop_nil. split; [done|]. split; [lia|].
      intros Hall. apply Forall_cons in Hall as [Hfetch Hall].
      rewrite (Heq Hfetch), (IHeq Hall). lia.
    + split; [done|]. split; [lia|].
      intros Hall. apply Forall_cons in Hall as [Hfetch Hall].
      rewrite (Heq Hfetch), (IHeq Hall). lia.
Qed.

(** ** From admission to the store *)

(** X9.  A pair admitted into an empty queue and not yet stored, whose
    source the next run finds reachable, ends as one new entry at the end
    of the store: [validated], with [mentioned] telling whether the body
    contains the target string, and the run's time.  The queue is empty
    again, the failure counts are untouched, and the store is what was
    written to the notifications file. *)
Theorem admitted_pair_gets_verified `{Host} st now req body st1 s t fetch later status data :
  queue st = [] ->
  handle st now req body = (st1, 202) ->
  URLSearchParams_get body "source" = Some s ->
  URLSearchParams_get body "target" = Some t ->
  find (isDuplicate (pair_of s t)) (webmentions st) = None ->
  fetch s = Response status data ->
  ok status = true ->
  let received := webmentions st ++ [verified s t (includes data t) later] in
  validateMention fetch later st1
  = ({| queue := []; webmentions := received; failures := failures st |},
     [(mentionsFile, ReceivedJSON received)]).
Proof.
  intros Hempty Hadmit Hs Ht Hfresh Hfetch Hok received.
  destruct (handle_outcomes st now req body)
    as [[_ Heq] | (_ & m & Hm & [[_ Heq] | [_ Heq]])];
    rewrite Hadmit in Heq; try (by injection Heq); [].
  injection Heq as ->.
  apply toMention_some in Hm as (s' & t' & Hs' & Ht' & _ & _ & ->).
  rewrite Hs in Hs'. rewrite Ht in Ht'. injection Hs' as <-. injection Ht' as <-.
  unfold validateMention, pushed. simpl. rewrite Hempty. simpl.
  rewrite Hfetch. unfold settle. rewrite Hok. simpl.
  unfold upsert. rewrite Hfresh. done.
Qed.

(** ** The earlier draft and the present code *)

(** X10.  The two validators decide alike.  On every request and body the
    draft's [isValid(request, body)] and the present
    [isValid(request, toMention(body))] complete in the same way with the
    same answer; neither throws. *)
Theorem draft_validator_agrees `{Host} req body :
  Draft.isValid req body = isValid req (toMention body).
Proof.
  unfold Draft.isValid, isValid, Draft.BAD_REQUEST_PREDICATES, BAD_REQUEST_PREDICATES,
    toMention, Draft.of_target, of_mention, DEBUG.
  cbn -[truthy_string startsWith String.eqb].
  destruct (String.eqb (method req) "POST");
    cbn -[truthy_string startsWith String.eqb]; [|done].
  destruct (headers req) as [h|]; cbn -[truthy_string startsWith String.eqb]; [|done].
  destruct (h !! "content-type") as [ct|];
    cbn -[truthy_string startsWith String.eqb]; [|done].
  destruct (String.eqb ct "application/x-www-form-urlencoded");
    cbn -[truthy_string startsWith String.eqb]; [|done].
  destruct (URLSearchParams_get body "source") as [s|];
    destruct (URLSearchParams_get body "target") as [t|];
    change (truthy_string None) with false;
    try destruct (truthy_string (Some s)); try destruct (truthy_string (Some t));
    cbn -[truthy_string startsWith String.eqb]; try done.
  destruct (String.eqb t s); [done|].
  destruct (URL_canParse s); [|done].
  destruct (URL_canParse t); [|done].
  cbn -[startsWith].
  destruct (0 <? Z.of_nat (length ALLOWED_TARGET_BASE_URLS)); cbn -[startsWith].
  - destruct (existsb (fun target => startsWith t target) ALLOWED_TARGET_BASE_URLS);
      cbn -[startsWith]; [|done].
    by destruct (startsWith t "https://" || startsWith t "http://").
  - by destruct (startsWith t "https://" || startsWith t "http://").
Qed.

Lemma assign_found_length {A} (p : A -> bool) f (l : list A) :
  length (assign_found p f l) = length l.
Proof.
  induction l as [|x l IH]; [done|]. simpl. destruct (p x); simpl; by rewrite ?IH.
Qed.

Lemma draft_settle_not_recorded m response now st :
  recorded response = false ->
  Draft.settle m response now st = settle m response now st.
Proof.
  intros Hrec. unfold Draft.settle, settle.
  destruct response as [|status data|status]; [done| |]; simpl in Hrec.
  - apply orb_false_iff in Hrec as [-> ->]. done.
  - destruct (ok status); [done|]. simpl in Hrec. by rewrite Hrec.
Qed.

(** After a recorded outcome the draft has appended the entry that the
    present code appends only when [find] comes back empty. *)
Lemma draft_settle_recorded m response now st :
  recorded response = true ->
  exists update fresh,
    Draft.settle m response now st
    = ({| queue := queue st; webmentions := webmentions st ++ [fresh];
          failures := failures st |},
       [(mentionsFile, ReceivedJSON (webmentions st ++ [fresh]))])
    /\ settle m response now st
       = ({| queue := queue st;
             webmentions := upsert m update fresh (webmentions st);
             failures := failures st |},
          [(mentionsFile, ReceivedJSON (upsert m update fresh (webmentions st)))]).
Proof.
  intros Hrec. unfold Draft.settle, settle.
  destruct response as [|status data|status]; [done| |]; simpl in Hrec.
  - destruct (ok status).
    + by exists (revalidate now (includes data (target m))),
        (new_mentioned now (includes data (target m)) m).
    + simpl in Hrec. rewrite Hrec. by exists (mark_deleted now), (new_deleted now m).
  - destruct (ok status); [done|]. simpl in Hrec. rewrite Hrec.
    by exists (mark_deleted now), (new_deleted now m).
Qed.

(** X11.  The draft's verifier and the present one do the same thing, to
    the state and to the files, except in one case: a 2xx or 410 outcome
    for a pair that already has an entry.  There the draft appends a
    second entry for the pair and the present code updates the first. *)
Theorem draft_verifier_differs_on_stored_pairs fetch now st m rest :
  queue st = m :: rest ->
  Draft.validateMention fetch now st = validateMention fetch now st
  <-> find (isDuplicate m) (webmentions st) = None
      \/ recorded (fetch (source m)) = false.
Proof.
  intros Hq. unfold Draft.validateMention, validateMention. rewrite Hq.
  destruct (recorded (fetch (source m))) eqn:Hrec.
  - destruct (draft_settle_recorded m (fetch (source m)) now (shift st) Hrec)
      as (update & fresh & -> & ->). simpl. split.
    + intros Heq. left.
      destruct (find (isDuplicate m) (webmentions st)) as [e|] eqn:Hfind; [|done].
      exfalso. injection Heq as Heq _. apply (f_equal length) in Heq.
      unfold upsert in Heq.
      rewrite Hfind, assign_found_length, length_app in Heq. simpl in Heq. lia.
    + intros [Hnone | Hne]; [|done]. unfold upsert. by rewrite Hnone.
  - split; [by right|]. intros _. by apply draft_settle_not_recorded.
Qed.

(** ** The budget in numbers *)

Lemma run_counter_exact `{Host} evs st s :
  counter (run evs st) s = counter st s + failed_runs s evs.
Proof.
  revert st. induction evs as [|ev evs IH]; intros st.
  - unfold failed_runs. simpl. lia.
  - change (run (ev :: evs) st) with (run evs (step st ev)).
    rewrite IH, step_counter, failed_runs_cons. lia.
Qed.

(** X12.  It takes six failures to shut a source out.  For a source with
    no count to start with, the failure-budget gate ([count > 5]) is
    closed after a history exactly when that history has six or more
    verifier runs on the source that ended in a failure. *)
Theorem sixth_failure_closes_the_gate `{Host} evs st s :
  failures st !! s = None ->
  5 < counter (run evs st) s <-> 6 <= failed_runs s evs.
Proof.
  intros Hnone. rewrite run_counter_exact. unfold counter at 1.
  rewrite Hnone. simpl. lia.
Qed.

(** ** What is on disk *)

Lemma validateMention_mirrors fetch now st d :
  mirrors d st ->
  mirrors (write_all (snd (validateMention fetch now st)) d)
    (fst (validateMention fetch now st)).
Proof.
  intros [Hstore Hcounts]. unfold validateMention.
  destruct (queue st) as [|m rest]; [done|].
  unfold settle.
  destruct (fetch (source m)) as [|status data|status]; [by split| |];
    (destruct (ok status); [by split|]; destruct (status =? 410); by split).
Qed.

(** X13.  The two files always hold what is in memory.  If the
    notifications file holds the store and the failures file the counts
    when a series of uninterrupted runs begins, as they do after start-up,
    then they do so again when it ends, each run's write having replaced
    the file it went to.  (The queue is in neither file.) *)
Theorem files_mirror_memory ticks st d :
  mirrors d st ->
  mirrors (write_all (snd (runs ticks st)) d) (fst (runs ticks st)).
Proof.
  revert st d. induction ticks as [|[fetch now] ticks IH]; intros st d Hd; [done|].
  simpl runs.
  pose proof (validateMention_mirrors fetch now st d Hd) as Hstep.
  destruct (validateMention fetch now st) as [st1 written]. simpl in Hstep.
  specialize (IH st1 _ Hstep).
  destruct (runs ticks st1) as [st2 written']. simpl in *.
  unfold write_all in *. by rewrite fold_left_app.
Qed.

(** ** The properties above on the sample host *)

Lemma queue_never_repeats_a_pair_witness :
  unique_pairs
    (queue (@run (Sample.host [])
              [Submit 0 Sample.post Sample.body; Submit 1 Sample.post Sample.body;
               Submit 2 Sample.post Sample.body_other_target]
              Sample.empty)).
Proof.
  apply (@queue_never_repeats_a_pair (Sample.host [])).
  apply NoDup_nil_2.
Defined.

Lemma queue_holds_admitted_pairs_witness :
  Forall (@admitted (Sample.host []))
    (queue (@run (Sample.host [])
              [Submit 0 Sample.post Sample.body;
               Submit 1 Sample.post Sample.body_empty_source;
               Submit 2 Sample.post Sample.body_other_target]
              Sample.empty)).
Proof.
  apply (@queue_holds_admitted_pairs (Sample.host [])).
  reflexivity.
Defined.

Lemma resubmission_while_queued_witness :
  let H := Sample.host [] in
  let st1 := pushed (pair_of Sample.a_post Sample.b_page) Sample.empty in
  let evs :=
    [Submit 5 Sample.post Sample.body_other_target;
     Settle (pair_of Sample.a_post_slash Sample.b_page) Rejected 6] in
  handle (run evs st1) 90000000 Sample.post Sample.body = (run evs st1, 500).
Proof.
  intros H st1 evs.
  apply (@resubmission_while_queued H Sample.empty 0 Sample.post Sample.body st1 evs
           90000000).
  - vm_compute. reflexivity.
  - repeat constructor; discriminate.
Defined.

Lemma budget_exhausted_for_good_witness :
  let H := Sample.host [] in
  let evs :=
    [Submit 5 Sample.post Sample.body;
     Settle (pair_of Sample.a_post Sample.b_page) (Sample.links Sample.a_post) 6] in
  handle (run evs Sample.over_budget) 7 Sample.post Sample.body_other_target
  = (run evs Sample.over_budget, 400)
  \/ handle (run evs Sample.over_budget) 7 Sample.post Sample.body_other_target
     = (run evs Sample.over_budget, 500).
Proof.
  intros H evs.
  apply (@budget_exhausted_for_good H Sample.over_budget Sample.a_post evs 7
           Sample.post Sample.body_other_target).
  - vm_compute. reflexivity.
  - vm_compute. reflexivity.
Defined.

Lemma store_entries_are_kept_witness :
  let H := Sample.host [] in
  let m := pair_of Sample.a_post Sample.b_page in
  let e :=
    {| source := Sample.a_post; target := Sample.b_page; validated := Some true;
       mentioned := Some true; isMentioned := None; deleted := None;
       validatedAt := Some 0 |} in
  exists e',
    webmentions
      (run [Dequeue; Settle m (Sample.gone Sample.a_post) 100;
            Settle m (Sample.links Sample.a_post) 200]
         Sample.verified_mentioned) !! 0%nat = Some e'
    /\ kept e e'.
Proof.
  intros H m e.
  apply (@store_entries_are_kept H _ Sample.verified_mentioned 0%nat e).
  reflexivity.
Defined.

Lemma recorded_pair_is_fresh_for_a_day_witness :
  let m := pair_of Sample.a_post Sample.b_page in
  let st' := fst (settle m (Sample.links Sample.a_post) 1000 Sample.empty) in
  (2000 - 1000 < 86400000 -> isEnqueueable st' 2000 m = false)
  /\ (86400000 <= 2000 - 1000 ->
      (isEnqueueable st' 2000 m = true
       <-> (forall q, q ∈ queue Sample.empty -> ~ same_pair m q)
           /\ counter Sample.empty (source m) <= 5)).
Proof.
  intros m.
  apply (recorded_pair_is_fresh_for_a_day m (Sample.links Sample.a_post) 1000
           Sample.empty 2000).
  reflexivity.
Defined.

Lemma admitted_pair_gets_verified_witness :
  let H := Sample.host [] in
  let st1 := pushed (pair_of Sample.a_post Sample.b_page) Sample.empty in
  let received :=
    webmentions Sample.empty
    ++ [verified Sample.a_post Sample.b_page
          (includes "<a href='https://b.example/page'>a page</a>" Sample.b_page) 500] in
  validateMention Sample.links 500 st1
  = ({| queue := []; webmentions := received; failures := failures Sample.empty |},
     [(mentionsFile, ReceivedJSON received)]).
Proof.
  intros H st1.
  apply (@admitted_pair_gets_verified H Sample.empty 0 Sample.post Sample.body st1
           Sample.a_post Sample.b_page Sample.links 500 200
           "<a href='https://b.example/page'>a page</a>").
  - reflexivity.
  - vm_compute. reflexivity.
  - vm_compute. reflexivity.
  - vm_compute. reflexivity.
  - reflexivity.
  - reflexivity.
  - reflexivity.
Defined.

Lemma draft_verifier_differs_on_stored_pairs_witness :
  let m := pair_of Sample.a_post Sample.b_page in
  Draft.validateMention Sample.links 500 Sample.verified_mentioned
  = validateMention Sample.links 500 Sample.verified_mentioned
  <-> find (isDuplicate m) (webmentions Sample.verified_mentioned) = None
      \/ recorded (Sample.links (source m)) = false.
Proof.
  intros m.
  apply (draft_verifier_differs_on_stored_pairs Sample.links 500
           Sample.verified_mentioned m []).
  reflexivity.
Defined.

Lemma sixth_failure_closes_the_gate_witness :
  let H := Sample.host [] in
  let m := pair_of Sample.a_post Sample.b_page in
  let evs := List.repeat (Settle m Rejected 0) 6 in
  5 < counter (run evs Sample.empty) Sample.a_post
  <-> 6 <= failed_runs Sample.a_post evs.
Proof.
  intros H m evs.
  apply (@sixth_failure_closes_the_gate H evs Sample.empty Sample.a_post).
  reflexivity.
Defined.

Lemma files_mirror_memory_witness :
  let ticks := [(Sample.down, 100); (Sample.links, 200)] in
  mirrors (write_all (snd (runs ticks Sample.pending)) Sample.blank_disk)
    (fst (runs ticks Sample.pending)).
Proof.
  intros ticks.
  apply (files_mirror_memory ticks Sample.pending Sample.blank_disk).
  split; reflexivity.
Defined.

(** The draft stores a pair twice where the present code keeps one
    entry. *)
Example draft_appends_a_second_entry :
  let m := pair_of Sample.a_post Sample.b_page in
  length (entries_for m
            (webmentions (fst (Draft.validateMention Sample.gone 500
                                 Sample.verified_mentioned)))) = 2%nat
  /\ length (entries_for m
               (webmentions (fst (validateMention Sample.gone 500
                                    Sample.verified_mentioned)))) = 1%nat.
Proof. vm_compute. done. Qed.

(** Six rejected fetches: the seventh submission of the source is
    answered 500, the sixth was still admitted. *)
Example six_failures_then_refused :
  let H := Sample.host [] in
  let m := pair_of Sample.a_post Sample.b_page in
  let failure := [Submit 0 Sample.post Sample.body; Dequeue; Settle m Rejected 0] in
  let five := failure ++ failure ++ failure ++ failure ++ failure in
  snd (handle (run five Sample.empty) 0 Sample.post Sample.body) = 202
  /\ snd (handle (run (five ++ failure) Sample.empty) 0 Sample.post Sample.body) = 500.
Proof. vm_compute. done. Qed.

(** ** The allow-list is a test on strings *)

Lemma append_assoc (a b c : string) : ((a ++ b) ++ c = a ++ (b ++ c))%string.
Proof.
  induction a as [|x a IH]; [done|].
  change (String x ((a ++ b) ++ c) = String x (a ++ (b ++ c)))%string.
  by rewrite IH.
Qed.

Lemma prefix_extend p q x :
  String.prefix p q = true -> String.prefix p (q ++ x)%string = true.
Proof.
  rewrite !prefix_spec. intros [rest ->]. exists (rest ++ x)%string.
  apply append_assoc.
Qed.

(** X14.  An allow-list entry admits every target that merely begins with
    it.  If the submitted target is an allowed base URL followed by any
    further text, the request is otherwise in order and the two URLs
    parse, the validator accepts it: the entry [https://b.example] also
    lets through a target on [https://b.example.evil.org/]. *)
Theorem allow_list_admits_every_extension `{Host} req body s base rest :
  valid_request req ->
  URLSearchParams_get body "source" = Some s ->
  URLSearchParams_get body "target" = Some (base ++ rest)%string ->
  s <> "" ->
  s <> (base ++ rest)%string ->
  URL_canParse s = true ->
  URL_canParse (base ++ rest)%string = true ->
  base ∈ ALLOWED_TARGET_BASE_URLS ->
  String.prefix "https://" base = true \/ String.prefix "http://" base = true ->
  isValid req (toMention body) = Normal true.
Proof.
  intros Hreq Hs Ht Hs' Hne Hcs Hct Hbase Hscheme.
  assert (Hnonempty : (base ++ rest)%string <> "").
  { destruct base; [by destruct Hscheme | done]. }
  assert (Hm : toMention body = Some (pair_of s (base ++ rest)%string)).
  { apply toMention_some. eauto 10. }
  destruct (isValid_spec req (toMention body)) as [[Hyes _] | [_ Hno]]; [done|].
  exfalso. apply Hno. split; [done|].
  eexists. split; [done|]. unfold valid_mention. simpl.
  split; [done|]. split; [done|]. split; [done|]. split.
  - right. exists base. split; [done|]. apply prefix_spec. by exists rest.
  - destruct Hscheme as [Hs1 | Hs1]; [left | right]; by apply prefix_extend.
Qed.

Lemma allow_list_admits_every_extension_witness :
  let H := Sample.host ["https://b.example"] in
  isValid Sample.post
    (toMention "source=https://a.example/post&target=https://b.example.evil.org/")
  = Normal true.
Proof.
  intros H.
  apply (@allow_list_admits_every_extension H Sample.post
           "source=https://a.example/post&target=https://b.example.evil.org/"
           "https://a.example/post" "https://b.example" ".evil.org/").
  - split; [reflexivity|]. eexists. split; reflexivity.
  - vm_compute. reflexivity.
  - vm_compute. reflexivity.
  - discriminate.
  - discriminate.
  - reflexivity.
  - reflexivity.
  - left.
  - left. reflexivity.
Defined.
